(** * AuctionApp: a shallow embedding of the mock auction server

    The development follows [AuctionApp.py]: the module globals become one
    record that every route handler receives and returns, the signed
    cookie of a client becomes an explicit [Session] value, and the
    messages a handler flashes become the constructors of [Flash].

    Amounts are Python floats in the source.  They are idealised here as
    exact rationals ([Q]): sums, differences and comparisons are the
    mathematical ones, and the special values NaN and Infinity are outside
    the model.  The tolerance [1e-6] and the increment [0.1] of the source
    are kept as written. *)

From Stdlib Require Import QArith Lqa ZArith Lia Sorted.
From stdpp Require Import gmap strings list fin_maps sorting.

Local Open Scope Q_scope.

(** ** Numbers *)

(** [a < b] as a boolean; [a <= b] is [Qle_bool] of the standard library. *)
Definition Qlt_bool (x y : Q) : bool :=
  (Qnum x * QDen y <? Qnum y * QDen x)%Z.

(** Python's two-argument [max(a, b)]: [b] when [b > a], otherwise [a]. *)
Definition py_max (a b : Q) : Q := if Qlt_bool a b then b else a.

Definition tolerance : Q := 1 # 1000000.   (* 1e-6 *)
Definition increment : Q := 1 # 10.        (* 0.1  *)

(** ** Data models *)

Record Player := mkPlayer {
  id : Z;
  set_no : Z;
  set_code : string;
  first_name : string;
  surname : string;
  country : string;
  base_price : Q;     (* in lakh *)
  role : string
}.

Record Team := mkTeam {
  name : string;
  purse_total : Q;      (* in crore *)
  purse_remaining : Q;  (* in crore *)
  taken_by : option string;
  squad : list Z
}.

Record Bid := mkBid {
  player_id : Z;
  team_name : string;
  amount : Q            (* in crore *)
}.

(** The value stored in [SOLD_PLAYERS]: the dict literal with the keys
    [player_name], [team_name] and [price_cr]. *)
Record Sold := mkSold {
  sold_player_name : string;
  sold_team_name : option string;
  price_cr : Q
}.

(** ** Application state: the module globals *)

Record State := mkState {
  PLAYERS : gmap Z Player;
  TEAMS : gmap string Team;
  AUCTION_STARTED : bool;
  AUCTION_ORDER : list Z;
  CURRENT_INDEX : Z;
  CURRENT_BID : option Bid;
  SOLD_PLAYERS : gmap Z Sold
}.

Definition module_globals : State :=
  {| PLAYERS := ∅; TEAMS := ∅; AUCTION_STARTED := false;
     AUCTION_ORDER := []; CURRENT_INDEX := (-1)%Z; CURRENT_BID := None;
     SOLD_PLAYERS := ∅ |}.

Definition DEFAULT_TEAMS : list (string * Q) :=
  [("CSK", 100); ("MI", 100); ("RCB", 100); ("KKR", 100); ("SRH", 100);
   ("RR", 100); ("DC", 100); ("PBKS", 100); ("GT", 100); ("LSG", 100)]%string.


(** ** Strings *)

(** The whitespace [str.strip] removes, restricted to ASCII. *)
Definition is_space (a : Ascii.ascii) : bool :=
  let n := Ascii.nat_of_ascii a in
  (n =? 32)%nat || ((9 <=? n)%nat && (n <=? 13)%nat)
  || ((28 <=? n)%nat && (n <=? 31)%nat).

Fixpoint lstrip (s : string) : string :=
  match s with
  | String a s' => if is_space a then lstrip s' else s
  | EmptyString => EmptyString
  end.

Fixpoint rstrip (s : string) : string :=
  match s with
  | String a s' =>
      match rstrip s' with
      | EmptyString => if is_space a then EmptyString else String a EmptyString
      | r => String a r
      end
  | EmptyString => EmptyString
  end.

Definition strip (s : string) : string := rstrip (lstrip s).

(** Truth value of a Python string, and of an [Optional[str]]. *)
Definition truthy (s : string) : bool :=
  match s with EmptyString => false | _ => true end.

Definition truthy_opt (o : option string) : bool :=
  match o with Some s => truthy s | None => false end.

Definition full_name (p : Player) : string :=
  strip (first_name p +:+ " " +:+ surname p).

(** ** Flashed messages *)

(** One constructor per message of the source; where the specification
    names the failure, the constructor bears that name. *)
Inductive Flash :=
  | NotAuthorized            (* redirect without a message: not an admin *)
  | Page                     (* a page is rendered, nothing flashed *)
  | InternalError            (* an uncaught KeyError *)
  | AlreadyStarted           (* "Auction already started. You cannot ..." *)
  | InvalidFranchise         (* "Invalid team." *)
  | AlreadyClaimed           (* "That team is already taken." *)
  | TeamTaken (team : string)  (* "You have taken team ..." *)
  | TeamLeft                 (* "You have left your team." *)
  | NotAssigned              (* "You are not currently assigned to any team." *)
  | LoginOk                  (* "Admin login successful." *)
  | WrongPassword            (* "Wrong password." *)
  | LoggedOut                (* "Logged out of admin." *)
  | PursesUpdated            (* "Team purses updated." *)
  | NoFileUploaded           (* "No file uploaded." *)
  | UnsupportedFile          (* "Unsupported file type. ..." *)
  | Loaded (count : nat)     (* "Loaded players from ..." and the count *)
  | EmptyCatalog             (* "No players loaded." *)
  | AuctionStarted           (* "Auction started." *)
  | AuctionEnded             (* "Auction has been ended by admin." *)
  | NotStarted               (* "Auction not started." / "Auction is not live." *)
  | NoClaimant               (* "Select a team before bidding." *)
  | NoActivePlayer           (* "No active player." *)
  | InvalidAmount            (* "Invalid amount." *)
  | NotPositive              (* "Bid must be positive." *)
  | BidTooLow (min_allowed : Q)  (* "Bid must be at least ... Cr." *)
  | InsufficientPurse        (* "You do not have enough purse." *)
  | BidPlaced (team : string) (amount : Q)  (* "Bid placed: ..." *)
  | NoBid                    (* "No bids to sell." *)
  | SoldTo (player team : string) (price : Q)  (* "Sold ... to ... for ..." *)
  | MarkedUnsold (player : string)  (* "... marked unsold." *)
  | MovedToNext.             (* "Moved to next player." *)

(** ** Field updates of the globals *)

Definition set_PLAYERS (v : gmap Z Player) (st : State) : State :=
  mkState v (TEAMS st) (AUCTION_STARTED st) (AUCTION_ORDER st)
          (CURRENT_INDEX st) (CURRENT_BID st) (SOLD_PLAYERS st).
Definition set_TEAMS (v : gmap string Team) (st : State) : State :=
  mkState (PLAYERS st) v (AUCTION_STARTED st) (AUCTION_ORDER st)
          (CURRENT_INDEX st) (CURRENT_BID st) (SOLD_PLAYERS st).
Definition set_AUCTION_STARTED (v : bool) (st : State) : State :=
  mkState (PLAYERS st) (TEAMS st) v (AUCTION_ORDER st)
          (CURRENT_INDEX st) (CURRENT_BID st) (SOLD_PLAYERS st).
Definition set_AUCTION_ORDER (v : list Z) (st : State) : State :=
  mkState (PLAYERS st) (TEAMS st) (AUCTION_STARTED st) v
          (CURRENT_INDEX st) (CURRENT_BID st) (SOLD_PLAYERS st).
Definition set_CURRENT_INDEX (v : Z) (st : State) : State :=
  mkState (PLAYERS st) (TEAMS st) (AUCTION_STARTED st) (AUCTION_ORDER st)
          v (CURRENT_BID st) (SOLD_PLAYERS st).
Definition set_CURRENT_BID (v : option Bid) (st : State) : State :=
  mkState (PLAYERS st) (TEAMS st) (AUCTION_STARTED st) (AUCTION_ORDER st)
          (CURRENT_INDEX st) v (SOLD_PLAYERS st).
Definition set_SOLD_PLAYERS (v : gmap Z Sold) (st : State) : State :=
  mkState (PLAYERS st) (TEAMS st) (AUCTION_STARTED st) (AUCTION_ORDER st)
          (CURRENT_INDEX st) (CURRENT_BID st) v.

Definition set_taken_by (v : option string) (t : Team) : Team :=
  mkTeam (name t) (purse_total t) (purse_remaining t) v (squad t).
Definition set_purse_total (v : Q) (t : Team) : Team :=
  mkTeam (name t) v (purse_remaining t) (taken_by t) (squad t).
Definition set_purse_remaining (v : Q) (t : Team) : Team :=
  mkTeam (name t) (purse_total t) v (taken_by t) (squad t).
Definition set_squad (v : list Z) (t : Team) : Team :=
  mkTeam (name t) (purse_total t) (purse_remaining t) (taken_by t) v.

(** ** Player loaders *)

Definition reset_auction_state (st : State) : State :=
  {| PLAYERS := PLAYERS st; TEAMS := TEAMS st;
     AUCTION_STARTED := false; AUCTION_ORDER := [];
     CURRENT_INDEX := (-1)%Z; CURRENT_BID := None; SOLD_PLAYERS := ∅ |}.

(** A row of an uploaded table after the cells have been read: the
    result of [int] on the set number ([None] where it raises
    [ValueError]), the text cells, and the result of [float] on the
    digits of the price cell ([None] where there are no digits or
    [float] raises). *)
Record Row := mkRow {
  cell_set_no : option Z;
  cell_set_code : string;
  cell_first_name : string;
  cell_surname : string;
  cell_country : string;
  cell_price : option Q;
  cell_role : string
}.

(** The body of the loop over rows, shared by the two loaders.  In the
    CSV loader a set number that does not parse skips the row; in the PDF
    loader it counts as 0. *)
Fixpoint load_rows (csv : bool) (rows : list Row) (pid : Z)
    (players : gmap Z Player) : gmap Z Player :=
  match rows with
  | [] => players
  | r :: rows' =>
      match cell_set_no r, csv with
      | None, true => load_rows csv rows' pid players
      | o, _ =>
          let first := strip (cell_first_name r) in
          let sur := strip (cell_surname r) in
          if negb (truthy first) && negb (truthy sur)
          then load_rows csv rows' pid players
          else
            let p := {| id := pid; set_no := default 0%Z o;
                        set_code := strip (cell_set_code r);
                        first_name := first; surname := sur;
                        country := strip (cell_country r);
                        base_price := default 0 (cell_price r);
                        role := strip (cell_role r) |} in
            load_rows csv rows' (pid + 1)%Z (<[pid := p]> players)
      end
  end.

(** [file] is the content of the file at [path], [None] when the path
    does not exist. *)
Definition load_players_from_csv (file : option (list Row)) (st : State)
    : State :=
  let st := set_PLAYERS ∅ st in
  match file with
  | None => st
  | Some rows => reset_auction_state (set_PLAYERS (load_rows true rows 1%Z ∅) st)
  end.

Definition load_players_from_pdf (file : option (list Row)) (st : State)
    : State :=
  let st := set_PLAYERS ∅ st in
  match file with
  | None => st
  | Some rows => reset_auction_state (set_PLAYERS (load_rows false rows 1%Z ∅) st)
  end.

(** The two files the server keeps on disk. *)
Record Disk := mkDisk {
  PLAYERS_PDF : option (list Row);
  PLAYERS_CSV : option (list Row)
}.

(** Truth value of a dict: it is not empty. *)
Definition nonempty `{Countable K} {A} (m : gmap K A) : bool :=
  negb (Nat.eqb (size m) 0).

Definition load_players_auto (d : Disk) (st : State) : State :=
  if nonempty (PLAYERS st) then st
  else match PLAYERS_PDF d with
       | Some _ => load_players_from_pdf (PLAYERS_PDF d) st
       | None =>
           match PLAYERS_CSV d with
           | Some _ => load_players_from_csv (PLAYERS_CSV d) st
           | None => st
           end
       end.

(** ** Other utilities *)

Definition init_teams (st : State) : State :=
  if nonempty (TEAMS st) then st
  else set_TEAMS
         (foldl (λ teams '(name, purse),
                   <[name := mkTeam name purse purse None []]> teams)
                (TEAMS st) DEFAULT_TEAMS) st.

(** The cookie of one client. *)
Record Session := mkSession {
  session_team_name : option string;
  session_is_admin : bool
}.

Definition no_session : Session := mkSession None false.

Definition is_admin (s : Session) : bool := session_is_admin s.

Definition current_team (s : Session) (st : State) : option Team :=
  match session_team_name s with
  | Some team_name =>
      if truthy team_name then TEAMS st !! team_name else None
  | None => None
  end.

(** ** The auction order *)

(** [PLAYERS.values()]: a Python dict iterates in insertion order, and
    the loaders insert the ids 1, 2, 3, ... in this order, so the values
    come by ascending id. *)
Definition key_le (a b : Z * Player) : Prop := (a.1 ≤ b.1)%Z.

#[global] Instance key_le_dec a b : Decision (key_le a b).
Proof. unfold key_le. apply _. Defined.

Definition dict_values (players : gmap Z Player) : list Player :=
  (merge_sort key_le (map_to_list players)).*2.

(** [random.shuffle], with the random source made explicit: [draws] are
    the raw numbers the generator yields, and [randbelow n] reduces the
    next one below [n]. *)
Definition randbelow (n : nat) (draws : list nat) : nat * list nat :=
  match draws with
  | [] => (0%nat, [])
  | d :: draws' => ((d mod n)%nat, draws')
  end.

(** [x[i], x[j] = x[j], x[i]] *)
Definition swap {A} (i j : nat) (x : list A) : list A :=
  match x !! i, x !! j with
  | Some a, Some b => <[j := a]> (<[i := b]> x)
  | _, _ => x
  end.

(** The loop [for i in reversed(range(1, len(x)))], from index [i] down. *)
Fixpoint shuffle_from {A} (i : nat) (draws : list nat) (x : list A)
    : list A * list nat :=
  match i with
  | O => (x, draws)
  | S i' =>
      let '(j, draws') := randbelow (S i) draws in
      shuffle_from i' draws' (swap i j x)
  end.

Definition shuffle {A} (draws : list nat) (x : list A) : list A * list nat :=
  shuffle_from (length x - 1) draws x.

(** [sets.setdefault(p.set_no, []).append(p)] for every player. *)
Definition group_by_set (players : list Player) : gmap Z (list Player) :=
  foldl (λ sets p, <[set_no p := default [] (sets !! set_no p) ++ [p]]> sets)
        ∅ players.

(** [sorted(sets.keys())] *)
Definition sorted_keys (sets : gmap Z (list Player)) : list Z :=
  merge_sort Z.le (map_to_list sets).*1.

(** The loop over the sorted set numbers: shuffle the set, extend the
    order with its ids. *)
Fixpoint extend_order (keys : list Z) (sets : gmap Z (list Player))
    (draws : list nat) (order : list Z) : list Z * list nat :=
  match keys with
  | [] => (order, draws)
  | s :: keys' =>
      let '(players, draws') := shuffle draws (default [] (sets !! s)) in
      extend_order keys' sets draws' (order ++ (id <$> players))
  end.

Definition build_auction_order (draws : list nat) (st : State) : State :=
  let st := set_AUCTION_ORDER [] st in
  if negb (nonempty (PLAYERS st)) then st
  else
    let sets := group_by_set (dict_values (PLAYERS st)) in
    let order := (extend_order (sorted_keys sets) sets draws []).1 in
    set_CURRENT_BID None
      (set_CURRENT_INDEX 0%Z
         (set_AUCTION_STARTED true (set_AUCTION_ORDER order st))).

Definition get_current_player (st : State) : option Player :=
  if negb (AUCTION_STARTED st) || (CURRENT_INDEX st <? 0)%Z
     || (Z.of_nat (length (AUCTION_ORDER st)) <=? CURRENT_INDEX st)%Z
  then None
  else
    match AUCTION_ORDER st !! Z.to_nat (CURRENT_INDEX st) with
    | Some pid => PLAYERS st !! pid
    | None => None
    end.

(** ** Routes *)

(** [GET /] and [GET /auction] only initialise the teams and load the
    saved roster. *)
Definition home (d : Disk) (st : State) : State * Flash :=
  (load_players_auto d (init_teams st), Page).

Definition auction_room (d : Disk) (st : State) : State * Flash :=
  (load_players_auto d (init_teams st), Page).

(** [/select-team]; [post] carries the form fields [team] and
    [display_name] of a POST, and is [None] for a GET. *)
Definition select_team (s : Session)
    (post : option (option string * option string)) (st : State)
    : State * Session * Flash :=
  let st := init_teams st in
  if AUCTION_STARTED st then (st, s, AlreadyStarted)
  else
    match post with
    | None => (st, s, Page)
    | Some (team_field, display_field) =>
        let display_name :=
          if truthy_opt display_field then default "Player"%string display_field
          else "Player"%string in
        match team_field with
        | None => (st, s, InvalidFranchise)
        | Some team_name =>
            if negb (truthy team_name) then (st, s, InvalidFranchise)
            else
              match TEAMS st !! team_name with
              | None => (st, s, InvalidFranchise)
              | Some team =>
                  if truthy_opt (taken_by team) then (st, s, AlreadyClaimed)
                  else
                    (* free old team if any *)
                    let teams :=
                      match current_team s st, session_team_name s with
                      | Some _, Some old =>
                          alter (set_taken_by None) old (TEAMS st)
                      | _, _ => TEAMS st
                      end in
                    let teams :=
                      alter (set_taken_by (Some display_name)) team_name teams in
                    (set_TEAMS teams st,
                     mkSession (Some team_name) (session_is_admin s),
                     TeamTaken team_name)
              end
        end
    end.

Definition unselect_team (s : Session) (st : State)
    : State * Session * Flash :=
  let st := init_teams st in
  if AUCTION_STARTED st then (st, s, AlreadyStarted)
  else
    match current_team s st, session_team_name s with
    | Some _, Some team_name =>
        (set_TEAMS (alter (set_taken_by None) team_name (TEAMS st)) st,
         mkSession None (session_is_admin s), TeamLeft)
    | _, _ => (st, s, NotAssigned)
    end.

Definition ADMIN_PASSWORD : string := "ipladmin".

(** [/admin/login]; [post] is the password field of a POST. *)
Definition admin_login (s : Session) (post : option (option string))
    : Session * Flash :=
  match post with
  | None => (s, Page)
  | Some pw =>
      match pw with
      | Some p =>
          if String.eqb p ADMIN_PASSWORD
          then (mkSession (session_team_name s) true, LoginOk)
          else (s, WrongPassword)
      | None => (s, WrongPassword)
      end
  end.

Definition admin_logout (s : Session) : Session * Flash :=
  (mkSession (session_team_name s) false, LoggedOut).

(** One iteration of the loop over the teams in [admin_dashboard]; a
    form value is [None] where [float] raises [ValueError]. *)
Definition update_purse (started : bool) (form : gmap string (option Q))
    (name : string) (t : Team) : Team :=
  match form !! ("purse_" +:+ name)%string with
  | Some (Some val) =>
      let t := set_purse_total val t in
      (* adjust remaining only if no auction yet *)
      if negb started then set_purse_remaining val t else t
  | _ => t
  end.

Definition admin_dashboard (s : Session)
    (post : option (gmap string (option Q))) (d : Disk) (st : State)
    : State * Flash :=
  let st := load_players_auto d (init_teams st) in
  if negb (is_admin s) then (st, NotAuthorized)
  else
    match post with
    | None => (st, Page)
    | Some form =>
        (set_TEAMS
           (map_imap (λ name t,
                        Some (update_purse (AUCTION_STARTED st) form name t))
                     (TEAMS st)) st,
         PursesUpdated)
    end.

(** An uploaded file, by its extension. *)
Inductive Upload :=
  | UploadPdf (rows : list Row)
  | UploadCsv (rows : list Row)
  | UploadOther.

Definition upload_players (s : Session) (file : option Upload) (d : Disk)
    (st : State) : State * Disk * Flash :=
  if negb (is_admin s) then (st, d, NotAuthorized)
  else
    match file with
    | None => (st, d, NoFileUploaded)
    | Some (UploadPdf rows) =>
        let d := mkDisk (Some rows) (PLAYERS_CSV d) in
        let st := load_players_from_pdf (PLAYERS_PDF d) st in
        (st, d, Loaded (size (PLAYERS st)))
    | Some (UploadCsv rows) =>
        let d := mkDisk (PLAYERS_PDF d) (Some rows) in
        let st := load_players_from_csv (PLAYERS_CSV d) st in
        (st, d, Loaded (size (PLAYERS st)))
    | Some UploadOther => (st, d, UnsupportedFile)
    end.

Definition start_auction (s : Session) (draws : list nat) (st : State)
    : State * Flash :=
  if negb (is_admin s) then (st, NotAuthorized)
  else if negb (nonempty (PLAYERS st)) then (st, EmptyCatalog)
  else (build_auction_order draws st, AuctionStarted).

Definition end_auction (s : Session) (st : State) : State * Flash :=
  if negb (is_admin s) then (st, NotAuthorized)
  else
    (set_CURRENT_BID None
       (set_CURRENT_INDEX (-1)%Z (set_AUCTION_STARTED false st)),
     AuctionEnded).

(** [/auction/bid]; [amount_field] is the form field [amount]: absent,
    or the result of [float] on it ([None] where [float] raises). *)
Definition place_bid (s : Session) (amount_field : option (option Q))
    (st : State) : State * Flash :=
  if negb (AUCTION_STARTED st) then (st, NotStarted)
  else
    match current_team s st with
    | None => (st, NoClaimant)
    | Some team =>
        match get_current_player st with
        | None => (st, NoActivePlayer)
        | Some player =>
            let leading := amount <$> CURRENT_BID st in
            match default (Some 0) amount_field with
            | None => (st, InvalidAmount)
            | Some amount =>
                if Qle_bool amount 0 then (st, NotPositive)
                else
                  (* base price in crore *)
                  let min_price := base_price player / 100 in
                  let min_allowed :=
                    py_max min_price
                      match leading with
                      | Some leader => leader + increment
                      | None => min_price
                      end in
                  if Qlt_bool amount (min_allowed - tolerance)
                  then (st, BidTooLow min_allowed)
                  else if Qlt_bool (purse_remaining team + tolerance) amount
                  then (st, InsufficientPurse)
                  else
                    (set_CURRENT_BID
                       (Some (mkBid (id player) (name team) amount)) st,
                     BidPlaced (name team) amount)
            end
        end
    end.

Definition sell_player (s : Session) (st : State) : State * Flash :=
  if negb (is_admin s) then (st, NotAuthorized)
  else if negb (AUCTION_STARTED st) then (st, NotStarted)
  else
    match get_current_player st with
    | None => (st, NoActivePlayer)
    | Some player =>
        match CURRENT_BID st with
        | None => (st, NoBid)
        | Some bid =>
            match TEAMS st !! team_name bid with
            | None => (st, InternalError)
            | Some team =>
                let price_cr := amount bid in
                let team' :=
                  set_squad (squad team ++ [id player])
                    (set_purse_remaining (purse_remaining team - price_cr)
                       team) in
                let st := set_TEAMS (<[team_name bid := team']> (TEAMS st)) st in
                let st :=
                  set_SOLD_PLAYERS
                    (<[id player :=
                         mkSold (full_name player) (Some (name team)) price_cr]>
                       (SOLD_PLAYERS st)) st in
                (set_CURRENT_INDEX (CURRENT_INDEX st + 1)%Z
                   (set_CURRENT_BID None st),
                 SoldTo (full_name player) (name team) price_cr)
            end
        end
    end.

Definition unsold_player (s : Session) (st : State) : State * Flash :=
  if negb (is_admin s) then (st, NotAuthorized)
  else if negb (AUCTION_STARTED st) then (st, NotStarted)
  else
    match get_current_player st with
    | None => (st, NoActivePlayer)
    | Some player =>
        let st :=
          set_SOLD_PLAYERS
            (<[id player := mkSold (full_name player) None 0]>
               (SOLD_PLAYERS st)) st in
        (set_CURRENT_INDEX (CURRENT_INDEX st + 1)%Z (set_CURRENT_BID None st),
         MarkedUnsold (full_name player))
    end.

Definition next_player (s : Session) (st : State) : State * Flash :=
  if negb (is_admin s) then (st, NotAuthorized)
  else if negb (AUCTION_STARTED st) then (st, NotStarted)
  else
    (set_CURRENT_INDEX (CURRENT_INDEX st + 1)%Z (set_CURRENT_BID None st),
     MovedToNext).

(** ** The server: globals, disk and the cookies of the clients *)

Record World := mkWorld {
  globals : State;
  disk : Disk;
  cookies : gmap nat Session
}.

Inductive Request :=
  | GetHome
  | GetSelectTeam
  | PostSelectTeam (team display_name : option string)
  | GetUnselectTeam
  | GetAdminLogin
  | PostAdminLogin (password : option string)
  | GetAdminLogout
  | GetAdmin
  | PostAdmin (form : gmap string (option Q))
  | PostUpload (file : option Upload)
  | PostStart (draws : list nat)
  | PostEnd
  | GetAuction
  | PostBid (amount_field : option (option Q))
  | PostSell
  | PostUnsold
  | PostNext.

Definition session_of (w : World) (client : nat) : Session :=
  default no_session (cookies w !! client).

(** One request of one client, served to completion. *)
Definition serve (w : World) (client : nat) (r : Request) : World * Flash :=
  let s := session_of w client in
  let st := globals w in
  let keep '(st', f) := (mkWorld st' (disk w) (cookies w), f) in
  let with_session '(st', s', f) :=
    (mkWorld st' (disk w) (<[client := s']> (cookies w)), f) in
  match r with
  | GetHome => keep (home (disk w) st)
  | GetSelectTeam => with_session (select_team s None st)
  | PostSelectTeam team display_name =>
      with_session (select_team s (Some (team, display_name)) st)
  | GetUnselectTeam => with_session (unselect_team s st)
  | GetAdminLogin =>
      let '(s', f) := admin_login s None in with_session (st, s', f)
  | PostAdminLogin password =>
      let '(s', f) := admin_login s (Some password) in with_session (st, s', f)
  | GetAdminLogout =>
      let '(s', f) := admin_logout s in with_session (st, s', f)
  | GetAdmin => keep (admin_dashboard s None (disk w) st)
  | PostAdmin form => keep (admin_dashboard s (Some form) (disk w) st)
  | PostUpload file =>
      let '(st', d', f) := upload_players s file (disk w) st in
      (mkWorld st' d' (cookies w), f)
  | PostStart draws => keep (start_auction s draws st)
  | PostEnd => keep (end_auction s st)
  | GetAuction => keep (auction_room (disk w) st)
  | PostBid amount_field => keep (place_bid s amount_field st)
  | PostSell => keep (sell_player s st)
  | PostUnsold => keep (unsold_player s st)
  | PostNext => keep (next_player s st)
  end.

Definition step (w : World) (cr : nat * Request) : World :=
  (serve w cr.1 cr.2).1.

Definition run (w : World) (trace : list (nat * Request)) : World :=
  foldl step w trace.

(** The process starts with the module globals, whatever is on disk,
    and no cookie handed out. *)
Definition boot (d : Disk) : World := mkWorld module_globals d ∅.

Definition reachable (w : World) : Prop :=
  ∃ d trace, w = run (boot d) trace.

(** ** Invariants and measures used by the properties *)

(** [n] consecutive skips by the same administrator. *)
Definition skips (s : Session) (n : nat) (st : State) : State :=
  Nat.iter n (λ st', (next_player s st').1) st.

(** ** A small run used to exercise the properties

    One player of set 1 with a base price of 200 lakh; client 0 is the
    administrator, clients 1 and 2 take CSK and MI. *)

Definition demo_rows : list Row :=
  [mkRow (Some 1%Z) "M1" "Virat" "Kohli" "India" (Some 200) "BATTER"].

Definition demo_setup : list (nat * Request) :=
  [(0, GetHome); (0, PostAdminLogin (Some "ipladmin"%string));
   (0, PostUpload (Some (UploadCsv demo_rows)));
   (1, PostSelectTeam (Some "CSK"%string) (Some "Asha"%string));
   (2, PostSelectTeam (Some "MI"%string) (Some "Ravi"%string));
   (0, PostStart [])]%nat.

(** The auction has started and nobody has bid yet. *)
Definition demo_started : World := run (boot (mkDisk None None)) demo_setup.

(** CSK leads at 2.0 crore. *)
Definition demo_csk_leads : World :=
  run demo_started [(1%nat, PostBid (Some (Some 2)))].

(** MI has overbid CSK with 2.1 crore. *)
Definition demo_mi_leads : World :=
  run demo_csk_leads [(2%nat, PostBid (Some (Some (21 # 10))))].

(** The player has been sold to MI; the position is past the end. *)
Definition demo_sold : World := run demo_mi_leads [(0%nat, PostSell)].

Definition admin_session : Session := mkSession None true.
Definition csk_session : Session := mkSession (Some "CSK"%string) false.
Definition mi_session : Session := mkSession (Some "MI"%string) false.

(** The administrator ends the auction and starts another one; MI bids
    2.5 crore for the same player and the administrator sells again. *)
Definition demo_restarted : World :=
  run demo_sold [(0, PostEnd); (0, PostStart [])]%nat.

Definition demo_resold : World :=
  run demo_restarted
      [(2, PostBid (Some (Some (5 # 2)))); (0, PostSell)]%nat.

(** The local [min_allowed] of [place_bid], for the current player
    [player]. *)
Definition min_allowed (st : State) (player : Player) : Q :=
  py_max (base_price player / 100)
    match CURRENT_BID st with
    | Some b => amount b + increment
    | None => base_price player / 100
    end.

(** What every handler maintains: dict keys agree with the names and ids
    stored under them, and a leading bid exists only while the auction is
    started, is positive, is not below the base price of the player under
    the hammer and is covered by the purse of its team, both up to the
    tolerance. *)
Record Inv (st : State) : Prop := mkInv {
  inv_team_names : ∀ k t, TEAMS st !! k = Some t → name t = k;
  inv_player_ids : ∀ k p, PLAYERS st !! k = Some p → id p = k;
  inv_bid_started : ∀ b, CURRENT_BID st = Some b → AUCTION_STARTED st = true;
  inv_bid_positive : ∀ b, CURRENT_BID st = Some b → 0 < amount b;
  inv_bid_base : ∀ b p,
    CURRENT_BID st = Some b → get_current_player st = Some p →
    base_price p / 100 - tolerance <= amount b;
  inv_bid_purse : ∀ b,
    CURRENT_BID st = Some b →
    ∃ t, TEAMS st !! team_name b = Some t
         ∧ amount b <= purse_remaining t + tolerance
}.


(** Each amount of [l] exceeds the one before it, and the first exceeds
    [lo] when there is one, by the increment less the tolerance. *)
Fixpoint rising (lo : option Q) (l : list Q) : Prop :=
  match l with
  | [] => True
  | x :: l' =>
      (∀ y, lo = Some y → y + increment - tolerance <= x) ∧ rising (Some x) l'
  end.

(** The players behind the ids that [extend_order] appends: the sets in
    the order of [keys], each shuffled in turn. *)
Fixpoint shuffled_players (keys : list Z) (sets : gmap Z (list Player))
    (draws : list nat) : list Player :=
  match keys with
  | [] => []
  | s :: keys' =>
      let '(players, draws') := shuffle draws (default [] (sets !! s)) in
      players ++ shuffled_players keys' sets draws'
  end.

(** The players behind the order [build_auction_order] builds. *)
Definition ordered_players (draws : list nat) (st : State) : list Player :=
  let sets := group_by_set (dict_values (PLAYERS st)) in
  shuffled_players (sorted_keys sets) sets draws.



(** [sum(o.price_cr for o in SOLD_PLAYERS.values() if o.team_name == F)]:
    what the outcomes say franchise [F] has spent. *)
Definition spent (F : string) (sold : gmap Z Sold) : Q :=
  map_fold (λ _ o acc,
              if decide (sold_team_name o = Some F) then acc + price_cr o
              else acc)
           0 sold.

(** Runs in which a condition [ok] holds of every request when it is
    served. *)
Fixpoint trace_ok (ok : World → nat → Request → Prop) (w : World)
    (trace : list (nat * Request)) : Prop :=
  match trace with
  | [] => True
  | cr :: trace' => ok w cr.1 cr.2 ∧ trace_ok ok (step w cr) trace'
  end.

Definition reachable_by (ok : World → nat → Request → Prop) (w : World)
    : Prop :=
  ∃ d trace, trace_ok ok (boot d) trace ∧ w = run (boot d) trace.

(** One auction run: an administrator edits purses only while no auction
    is running and no outcome is recorded, and reloads the catalog or
    starts an auction only while no outcome is recorded. *)
Definition single_run (w : World) (client : nat) (r : Request) : Prop :=
  match r with
  | PostAdmin _ =>
      is_admin (session_of w client) = true →
      SOLD_PLAYERS (globals w) = ∅ ∧ AUCTION_STARTED (globals w) = false
  | PostUpload _ | PostStart _ =>
      is_admin (session_of w client) = true → SOLD_PLAYERS (globals w) = ∅
  | _ => True
  end.

(** [F.purse_total - F.purse_remaining], and 0 for a name that is not a
    team. *)
Definition debited (teams : gmap string Team) (F : string) : Q :=
  match teams !! F with
  | Some t => purse_total t - purse_remaining t
  | None => 0
  end.

(** What a single run maintains: the outcomes account for the purses, the
    order of a started auction has no duplicate, every recorded outcome
    belongs to a position already passed, and there is no outcome without
    a catalog. *)
Record Ledger (st : State) : Prop := mkLedger {
  ledger_spent : ∀ F, spent F (SOLD_PLAYERS st) == debited (TEAMS st) F;
  ledger_order : AUCTION_STARTED st = true → NoDup (AUCTION_ORDER st);
  ledger_passed : ∀ pid,
    AUCTION_STARTED st = true → is_Some (SOLD_PLAYERS st !! pid) →
    ∃ i, (Z.of_nat i < CURRENT_INDEX st)%Z ∧ AUCTION_ORDER st !! i = Some pid;
  ledger_catalog : PLAYERS st = ∅ → SOLD_PLAYERS st = ∅
}.


(** The requests of the demo run up to the sale, in one trace. *)
Definition demo_trace : list (nat * Request) :=
  demo_setup ++
  [(1%nat, PostBid (Some (Some 2)));
   (2%nat, PostBid (Some (Some (21 # 10)))); (0%nat, PostSell)].

(** The teams of [st] are still there in [st'] with the same purses, and
    a team that is new in [st'] has the default purse. *)
Definition purses_kept (st st' : State) : Prop :=
  (∀ F t, TEAMS st !! F = Some t →
     ∃ t', TEAMS st' !! F = Some t'
           ∧ purse_total t' = purse_total t
           ∧ purse_remaining t' = purse_remaining t)
  ∧ (∀ F t', TEAMS st' !! F = Some t' → TEAMS st !! F = None →
       purse_total t' = 100 ∧ purse_remaining t' = 100).







(** ** The loaders, row by row *)

(** Whether the loop of a loader keeps a row: the CSV loader wants a set
    number that parses, and both want a first name or a surname. *)
Definition row_kept (csv : bool) (r : Row) : bool :=
  negb (csv && negb (bool_decide (is_Some (cell_set_no r))))
  && (truthy (strip (cell_first_name r)) || truthy (strip (cell_surname r))).

(** The player a kept row becomes under the id [pid]. *)
Definition player_of_row (pid : Z) (r : Row) : Player :=
  {| id := pid; set_no := default 0%Z (cell_set_no r);
     set_code := strip (cell_set_code r);
     first_name := strip (cell_first_name r);
     surname := strip (cell_surname r);
     country := strip (cell_country r);
     base_price := default 0 (cell_price r);
     role := strip (cell_role r) |}.

(** The rows a loader keeps, in file order. *)
Definition kept_rows (csv : bool) (rows : list Row) : list Row :=
  filter (λ r, row_kept csv r = true) rows.

(** A roster with a nameless row, a row whose set number does not parse,
    and two good rows. *)
Definition ragged_rows : list Row :=
  [mkRow (Some 1%Z) "M1" "  " "" "India" (Some 200) "BATTER";
   mkRow None "A2" "Jos" "Buttler" "England" (Some 150) "WK";
   mkRow (Some 1%Z) "M1" "Virat" "Kohli" "India" (Some 200) "BATTER";
   mkRow (Some 3%Z) "B3" "" "Rashid" "Afghanistan" None "BOWLER"].

(** ** Well-formed sessions *)

(** What every handler maintains about the session and the outcomes: the
    position is -1 exactly while no auction is running; a running auction
    has a catalog; the order has no duplicate and lists catalog players
    only; the leading bid is for the player under the hammer; and every
    outcome belongs to a catalog player, carries that player's name, and
    either names an existing team and a positive price or no team and the
    price 0. *)
Record Wf (st : State) : Prop := mkWf {
  wf_idle : AUCTION_STARTED st = false → CURRENT_INDEX st = (-1)%Z;
  wf_live :
    AUCTION_STARTED st = true → (0 ≤ CURRENT_INDEX st)%Z ∧ PLAYERS st ≠ ∅;
  wf_order_nodup : NoDup (AUCTION_ORDER st);
  wf_order_catalog :
    ∀ pid, pid ∈ AUCTION_ORDER st → is_Some (PLAYERS st !! pid);
  wf_bid_player : ∀ b,
    CURRENT_BID st = Some b →
    ∃ p, get_current_player st = Some p ∧ player_id b = id p;
  wf_sold : ∀ pid o,
    SOLD_PLAYERS st !! pid = Some o →
    ∃ p, PLAYERS st !! pid = Some p ∧ sold_player_name o = full_name p
         ∧ match sold_team_name o with
           | Some F => is_Some (TEAMS st !! F) ∧ 0 < price_cr o
           | None => price_cr o = 0
           end
}.

(** ** Claims on franchises *)

(** The teams of [st] are still there in [st'] with the same claimant. *)
Definition claimants_kept (st st' : State) : Prop :=
  ∀ F t, TEAMS st !! F = Some t →
         ∃ t', TEAMS st' !! F = Some t' ∧ taken_by t' = taken_by t.


(** The name [select_team] stores as claimant. *)
Definition display_name_of (display_field : option string) : string :=
  if truthy_opt display_field then default "Player"%string display_field
  else "Player"%string.


(** The cookie the client holds after its request has been served. *)
Definition session_after (w : World) (client : nat) (r : Request) : Session :=
  let s := session_of w client in
  match r with
  | GetSelectTeam => (select_team s None (globals w)).1.2
  | PostSelectTeam team display_name =>
      (select_team s (Some (team, display_name)) (globals w)).1.2
  | GetUnselectTeam => (unselect_team s (globals w)).1.2
  | GetAdminLogin => (admin_login s None).1
  | PostAdminLogin password => (admin_login s (Some password)).1
  | GetAdminLogout => (admin_logout s).1
  | _ => s
  end.

(** The requests only an administrator is served. *)
Definition admin_only (r : Request) : bool :=
  match r with
  | PostUpload _ | PostStart _ | PostEnd | PostSell | PostUnsold | PostNext =>
      true
  | _ => false
  end.

(** A CSV file in which no row has a name. *)
Definition nameless_rows : list Row :=
  [mkRow (Some 1%Z) "M1" "" " " "India" (Some 200) "BATTER"].


(** Two states with the same session and the same outcomes. *)
Definition same_auction (st st' : State) : Prop :=
  AUCTION_STARTED st' = AUCTION_STARTED st
  ∧ AUCTION_ORDER st' = AUCTION_ORDER st
  ∧ CURRENT_INDEX st' = CURRENT_INDEX st
  ∧ CURRENT_BID st' = CURRENT_BID st
  ∧ SOLD_PLAYERS st' = SOLD_PLAYERS st.



(** ** Squads and outcomes *)

(** Every team of [st'] has the squad it had in [st], or is new and has
    an empty squad. *)
Definition squads_kept (st st' : State) : Prop :=
  ∀ F t', TEAMS st' !! F = Some t' →
          (∃ t, TEAMS st !! F = Some t ∧ squad t' = squad t)
          ∨ (TEAMS st !! F = None ∧ squad t' = []).

(** The squads say what the outcomes say: a player is in the squad of a
    team exactly when an outcome gives the player to that team, and no
    squad lists a player twice. *)
Record Squads (st : State) : Prop := mkSquads {
  squads_sold : ∀ F t pid,
    TEAMS st !! F = Some t →
    (pid ∈ squad t ↔
     ∃ o, SOLD_PLAYERS st !! pid = Some o ∧ sold_team_name o = Some F);
  squads_nodup : ∀ F t, TEAMS st !! F = Some t → NoDup (squad t)
}.

(** ** The franchises *)

(** The names of [DEFAULT_TEAMS]. *)
Definition default_names : gset string := list_to_set DEFAULT_TEAMS.*1.

(** The requests whose handler calls [init_teams]. *)
Definition calls_init_teams (r : Request) : bool :=
  match r with
  | GetHome | GetSelectTeam | PostSelectTeam _ _ | GetUnselectTeam
  | GetAdmin | PostAdmin _ | GetAuction => true
  | _ => false
  end.

(** * Properties *)

Ltac unfold_setters :=
  unfold set_PLAYERS, set_TEAMS, set_AUCTION_STARTED, set_AUCTION_ORDER,
    set_CURRENT_INDEX, set_CURRENT_BID, set_SOLD_PLAYERS,
    reset_auction_state in *.

(** ** Comparisons *)

Lemma Qlt_bool_iff x y : Qlt_bool x y = true <-> x < y.
Proof. unfold Qlt_bool, Qlt. apply Z.ltb_lt. Qed.

Lemma Qlt_bool_false x y : Qlt_bool x y = false <-> y <= x.
Proof. unfold Qlt_bool, Qle. rewrite Z.ltb_ge. reflexivity. Qed.

Lemma Qle_bool_false x y : Qle_bool x y = false <-> y < x.
Proof.
  unfold Qle_bool, Qlt. rewrite Z.leb_gt. reflexivity.
Qed.

Lemma py_max_l a b : a <= py_max a b.
Proof.
  unfold py_max. destruct (Qlt_bool a b) eqn:E.
  - apply Qlt_bool_iff in E. lra.
  - lra.
Qed.

Lemma py_max_r a b : b <= py_max a b.
Proof.
  unfold py_max. destruct (Qlt_bool a b) eqn:E.
  - lra.
  - apply Qlt_bool_false in E. lra.
Qed.


Lemma py_max_right a b : a <= b -> py_max a b == b.
Proof.
  intros H. unfold py_max. destruct (Qlt_bool a b) eqn:E.
  - reflexivity.
  - apply Qlt_bool_false in E. lra.
Qed.

(** ** The skip action *)

Lemma next_player_admin s st :
  is_admin s = true → AUCTION_STARTED st = true →
  next_player s st =
    (set_CURRENT_INDEX (CURRENT_INDEX st + 1)%Z (set_CURRENT_BID None st),
     MovedToNext).
Proof. intros Ha Hs. unfold next_player. by rewrite Ha, Hs. Qed.

Lemma skips_started s n st :
  is_admin s = true → AUCTION_STARTED st = true →
  AUCTION_STARTED (skips s n st) = true
  ∧ CURRENT_INDEX (skips s n st) = (CURRENT_INDEX st + Z.of_nat n)%Z.
Proof.
  intros Ha Hs. induction n as [|n [IH1 IH2]]; simpl.
  - split; [done | lia].
  - fold (skips s n st). rewrite next_player_admin by done. simpl.
    split; [done | lia].
Qed.

(** C8: the skip action does not look at the current player.  For an
    administrator and a started session, whatever the position, one skip
    flashes "Moved to next player", clears the leading bid and adds one to
    the position, leaving the rest of the state alone; after any number
    [n] of skips the position has grown by [n], also beyond the length of
    the order, and the next skip again succeeds (it never answers "No
    active player"). *)
Theorem next_player_always_advances s st :
  is_admin s = true → AUCTION_STARTED st = true →
  next_player s st =
    (set_CURRENT_INDEX (CURRENT_INDEX st + 1)%Z (set_CURRENT_BID None st),
     MovedToNext)
  ∧ CURRENT_BID (next_player s st).1 = None
  ∧ CURRENT_INDEX (next_player s st).1 = (CURRENT_INDEX st + 1)%Z
  ∧ ∀ n, CURRENT_INDEX (skips s n st) = (CURRENT_INDEX st + Z.of_nat n)%Z
         ∧ (next_player s (skips s n st)).2 = MovedToNext.
Proof.
  intros Ha Hs. rewrite next_player_admin by done. simpl.
  repeat split; try done.
  - by apply skips_started.
  - destruct (skips_started s n st Ha Hs) as [Hs' _].
    by rewrite next_player_admin.
Qed.

(** The theorem applies to the demo run after its only player has been
    sold, where the position (1) is already past the end of the order. *)
Lemma next_player_always_advances_witness :
  (Z.of_nat (length (AUCTION_ORDER (globals demo_sold)))
     ≤ CURRENT_INDEX (globals demo_sold))%Z
  ∧ CURRENT_INDEX (next_player admin_session (globals demo_sold)).1 = 2%Z
  ∧ (next_player admin_session (skips admin_session 5 (globals demo_sold))).2
    = MovedToNext.
Proof.
  pose proof (next_player_always_advances admin_session (globals demo_sold)
                eq_refl eq_refl) as (_ & _ & Hi & Hn).
  split; [vm_compute; discriminate |].
  split; [rewrite Hi; reflexivity | apply (Hn 5%nat)].
Defined.

(** ** Selling *)

Lemma sell_player_success s st player team price :
  (sell_player s st).2 = SoldTo player team price →
  ∃ p b t,
    is_admin s = true ∧ AUCTION_STARTED st = true
    ∧ get_current_player st = Some p ∧ CURRENT_BID st = Some b
    ∧ TEAMS st !! team_name b = Some t
    ∧ (sell_player s st).1 =
        mkState (PLAYERS st)
          (<[team_name b :=
               set_squad (squad t ++ [id p])
                 (set_purse_remaining (purse_remaining t - amount b) t)]>
             (TEAMS st))
          true (AUCTION_ORDER st) (CURRENT_INDEX st + 1)%Z None
          (<[id p := mkSold (full_name p) (Some (name t)) (amount b)]>
             (SOLD_PLAYERS st)).
Proof.
  unfold sell_player.
  destruct (is_admin s); [|discriminate]. simpl.
  destruct (AUCTION_STARTED st) eqn:Hs; [|discriminate]. simpl.
  destruct (get_current_player st) as [p|]; [|discriminate].
  destruct (CURRENT_BID st) as [b|]; [|discriminate].
  destruct (TEAMS st !! team_name b) as [t|] eqn:Ht; [|discriminate].
  simpl. intros _. exists p, b, t. unfold_setters. simpl. by rewrite Hs.
Qed.

(** C3: when [sell_player] has just succeeded, the same call repeated
    at once fails: it answers "No active player" when no player stands at
    the advanced position (in particular when the position is past the
    end of the order) and "No bids to sell" otherwise, since the leading bid
    has been cleared.  The failed call returns the state unchanged: no
    purse is debited a second time, and no squad or outcome is touched. *)
Theorem sell_player_twice_fails s st player team price :
  (sell_player s st).2 = SoldTo player team price →
  let st1 := (sell_player s st).1 in
  sell_player s st1 =
    (st1, if get_current_player st1 is Some _ then NoBid else NoActivePlayer)
  ∧ ((Z.of_nat (length (AUCTION_ORDER st1)) ≤ CURRENT_INDEX st1)%Z →
     (sell_player s st1).2 = NoActivePlayer)
  ∧ TEAMS (sell_player s st1).1 = TEAMS st1
  ∧ SOLD_PLAYERS (sell_player s st1).1 = SOLD_PLAYERS st1.
Proof.
  intros H. destruct (sell_player_success _ _ _ _ _ H)
    as (p & b & t & Ha & Hs & Hp & Hb & Ht & ->).
  cbv zeta.
  set (st1 := mkState _ _ _ _ _ _ _).
  assert (Hsell : sell_player s st1 =
    (st1, if get_current_player st1 is Some _ then NoBid else NoActivePlayer)).
  { unfold sell_player. rewrite Ha. simpl.
    by destruct (get_current_player st1). }
  rewrite Hsell. repeat split; try done.
  intros Hend. simpl.
  unfold get_current_player.
  replace (Z.of_nat (length (AUCTION_ORDER st1)) <=? CURRENT_INDEX st1)%Z
    with true by (symmetry; by apply Z.leb_le).
  by rewrite orb_true_r.
Qed.

(** In the demo run the player is sold to MI once; the second call finds
    the position past the end of the order. *)
Lemma sell_player_twice_fails_witness :
  (sell_player admin_session (globals demo_mi_leads)).2
    = SoldTo "Virat Kohli" "MI" (21 # 10)
  ∧ sell_player admin_session
      (sell_player admin_session (globals demo_mi_leads)).1
    = ((sell_player admin_session (globals demo_mi_leads)).1, NoActivePlayer).
Proof.
  split; [reflexivity |].
  destruct (sell_player_twice_fails admin_session (globals demo_mi_leads)
              "Virat Kohli" "MI" (21 # 10) eq_refl) as (H & _).
  rewrite H. reflexivity.
Defined.

(** ** Reloading the catalog *)

Lemma reset_auction_state_spec st :
  reset_auction_state st =
    mkState (PLAYERS st) (TEAMS st) false [] (-1)%Z None ∅.
Proof. reflexivity. Qed.



(** ** The invariant of the handlers *)

Lemma nonempty_false `{Countable K} {A} (m : gmap K A) :
  nonempty m = false → m = ∅.
Proof.
  unfold nonempty. intros E. apply negb_false_iff, Nat.eqb_eq in E.
  by apply map_size_empty_inv.
Qed.

Lemma nonempty_true `{Countable K} {A} (m : gmap K A) :
  nonempty m = true → m ≠ ∅.
Proof.
  unfold nonempty. intros E. apply negb_true_iff, Nat.eqb_neq in E.
  by apply map_size_non_empty_iff.
Qed.

Lemma Inv_no_bid st :
  (∀ k t, TEAMS st !! k = Some t → name t = k) →
  (∀ k p, PLAYERS st !! k = Some p → id p = k) →
  CURRENT_BID st = None → Inv st.
Proof. intros Ht Hp Hb. split; try done; intros b; rewrite Hb; done. Qed.

Lemma Inv_module_globals : Inv module_globals.
Proof. apply Inv_no_bid; try done; intros k x; by rewrite lookup_empty. Qed.

Lemma default_teams_names l (m : gmap string Team) :
  (∀ k t, m !! k = Some t → name t = k) →
  ∀ k t,
    foldl (λ teams '(name, purse),
             <[name := mkTeam name purse purse None []]> teams) m l !! k
    = Some t →
    name t = k.
Proof.
  revert m. induction l as [|[n q] l IH]; intros m Hm k t; simpl.
  - apply Hm.
  - apply IH. intros k' t'. rewrite lookup_insert. case_decide.
    + intros [= <-]. done.
    + apply Hm.
Qed.

Lemma init_teams_Inv st : Inv st → Inv (init_teams st).
Proof.
  intros HI. unfold init_teams. destruct (nonempty (TEAMS st)) eqn:E; [done|].
  apply nonempty_false in E.
  apply Inv_no_bid.
  - exact (default_teams_names DEFAULT_TEAMS (TEAMS st) (inv_team_names _ HI)).
  - apply HI.
  - change (CURRENT_BID st = None).
    destruct (CURRENT_BID st) as [b|] eqn:Hb; [|done].
    destruct (inv_bid_purse _ HI b Hb) as (t & Ht & _).
    by rewrite E, lookup_empty in Ht.
Qed.

Lemma load_rows_ids csv rows pid (m : gmap Z Player) :
  (∀ k p, m !! k = Some p → id p = k) →
  ∀ k p, load_rows csv rows pid m !! k = Some p → id p = k.
Proof.
  revert pid m. induction rows as [|r rows IH]; intros pid m Hm; simpl.
  - done.
  - assert (Hadd : ∀ o k p,
      (if negb (truthy (strip (cell_first_name r)))
          && negb (truthy (strip (cell_surname r)))
       then load_rows csv rows pid m
       else load_rows csv rows (pid + 1)%Z
              (<[pid := mkPlayer pid (default 0%Z o)
                          (strip (cell_set_code r))
                          (strip (cell_first_name r))
                          (strip (cell_surname r))
                          (strip (cell_country r))
                          (default 0 (cell_price r))
                          (strip (cell_role r))]> m)) !! k = Some p →
      id p = k).
    { intros o k p. destruct (_ && _).
      - by apply IH.
      - apply IH. intros k' p'. rewrite lookup_insert. case_decide.
        + by intros [= <-].
        + apply Hm. }
    destruct (cell_set_no r) as [n|], csv;
      [apply (Hadd (Some n)) | apply (Hadd (Some n)) | by apply IH
      | apply (Hadd None)].
Qed.

Lemma load_players_from_csv_Inv file st :
  Inv st → Inv (load_players_from_csv file st).
Proof.
  intros HI. destruct file as [rows|]; simpl.
  - apply Inv_no_bid; simpl; try done; [apply HI|].
    apply load_rows_ids. intros k p. by rewrite lookup_empty.
  - split; simpl; try apply HI.
    + intros k p. by rewrite lookup_empty.
    + intros b p _. unfold get_current_player. simpl.
      destruct (_ || _); [done|]. destruct (_ !! _); [|done].
      by rewrite lookup_empty.
Qed.

Lemma load_players_from_pdf_Inv file st :
  Inv st → Inv (load_players_from_pdf file st).
Proof.
  intros HI. destruct file as [rows|]; simpl.
  - apply Inv_no_bid; simpl; try done; [apply HI|].
    apply load_rows_ids. intros k p. by rewrite lookup_empty.
  - split; simpl; try apply HI.
    + intros k p. by rewrite lookup_empty.
    + intros b p _. unfold get_current_player. simpl.
      destruct (_ || _); [done|]. destruct (_ !! _); [|done].
      by rewrite lookup_empty.
Qed.

Lemma load_players_auto_Inv d st : Inv st → Inv (load_players_auto d st).
Proof.
  intros HI. unfold load_players_auto.
  destruct (nonempty (PLAYERS st)); [done|].
  destruct (PLAYERS_PDF d); [by apply load_players_from_pdf_Inv|].
  destruct (PLAYERS_CSV d); [by apply load_players_from_csv_Inv|done].
Qed.

Lemma Inv_not_started st : Inv st → AUCTION_STARTED st = false → CURRENT_BID st = None.
Proof.
  intros HI Hs. destruct (CURRENT_BID st) as [b|] eqn:Hb; [|done].
  rewrite (inv_bid_started _ HI b Hb) in Hs. done.
Qed.

Lemma Inv_set_TEAMS st teams :
  Inv st →
  (∀ k t, teams !! k = Some t → name t = k) →
  (∀ b, CURRENT_BID st = Some b →
        ∃ t, teams !! team_name b = Some t
             ∧ amount b <= purse_remaining t + tolerance) →
  Inv (set_TEAMS teams st).
Proof. intros HI Hn Hb. split; try done; apply HI. Qed.

Lemma alter_names (f : Team → Team) k0 (m : gmap string Team) :
  (∀ t, name (f t) = name t) →
  (∀ k t, m !! k = Some t → name t = k) →
  ∀ k t, alter f k0 m !! k = Some t → name t = k.
Proof.
  intros Hf Hm k t. rewrite lookup_alter. case_decide as E.
  - subst. destruct (m !! k) as [t0|] eqn:E0; simpl; [|done].
    intros [= <-]. rewrite Hf. by apply Hm.
  - apply Hm.
Qed.

Lemma select_team_Inv s post st : Inv st → Inv (select_team s post st).1.1.
Proof.
  intros HI0. pose proof (init_teams_Inv _ HI0) as HI.
  unfold select_team. set (st0 := init_teams st) in *. clearbody st0.
  destruct (AUCTION_STARTED st0) eqn:Hs; [done|].
  destruct post as [[team_field display_field]|]; [|done].
  destruct team_field as [team_name|]; [|done].
  destruct (truthy team_name); [|done]. simpl.
  destruct (TEAMS st0 !! team_name) as [team|]; [|done].
  destruct (truthy_opt (taken_by team)); [done|].
  simpl. apply Inv_set_TEAMS; [done | |].
  - apply alter_names; [done|].
    destruct (current_team s st0), (session_team_name s); try apply HI.
    apply alter_names; [done | apply HI].
  - intros b Hb. by rewrite (Inv_not_started _ HI Hs) in Hb.
Qed.

Lemma unselect_team_Inv s st : Inv st → Inv (unselect_team s st).1.1.
Proof.
  intros HI0. pose proof (init_teams_Inv _ HI0) as HI.
  unfold unselect_team. set (st0 := init_teams st) in *. clearbody st0.
  destruct (AUCTION_STARTED st0) eqn:Hs; [done|].
  destruct (current_team s st0), (session_team_name s); try done.
  simpl. apply Inv_set_TEAMS; [done | |].
  - apply alter_names; [done | apply HI].
  - intros b Hb. by rewrite (Inv_not_started _ HI Hs) in Hb.
Qed.

Lemma update_purse_name started form k t :
  name (update_purse started form k t) = name t.
Proof.
  unfold update_purse. destruct (form !! _) as [[v|]|]; try done.
  by destruct started.
Qed.

Lemma update_purse_started form k t :
  purse_remaining (update_purse true form k t) = purse_remaining t.
Proof. unfold update_purse. by destruct (form !! _) as [[v|]|]. Qed.

Lemma admin_dashboard_Inv s post d st :
  Inv st → Inv (admin_dashboard s post d st).1.
Proof.
  intros HI0.
  pose proof (load_players_auto_Inv d _ (init_teams_Inv _ HI0)) as HI.
  unfold admin_dashboard.
  set (st0 := load_players_auto d (init_teams st)) in *. clearbody st0.
  destruct (is_admin s); [|done]. destruct post as [form|]; [|done].
  simpl. apply Inv_set_TEAMS; [done | |].
  - intros k t. rewrite map_lookup_imap.
    destruct (TEAMS st0 !! k) as [t0|] eqn:E; simpl; [|done].
    intros [= <-]. rewrite update_purse_name. by apply HI.
  - intros b Hb. destruct (inv_bid_purse _ HI b Hb) as (t & Ht & Hle).
    exists (update_purse true form (team_name b) t).
    rewrite map_lookup_imap, Ht. simpl.
    rewrite (inv_bid_started _ HI b Hb), update_purse_started. done.
Qed.

Lemma upload_players_Inv s file d st :
  Inv st → Inv (upload_players s file d st).1.1.
Proof.
  intros HI. unfold upload_players. destruct (is_admin s); [|done].
  destruct file as [[rows|rows|]|]; simpl; try done.
  - by apply (load_players_from_pdf_Inv (Some rows)).
  - by apply (load_players_from_csv_Inv (Some rows)).
Qed.

Lemma build_auction_order_Inv draws st :
  Inv st → Inv (build_auction_order draws st).
Proof.
  intros HI. unfold build_auction_order. simpl.
  destruct (nonempty (PLAYERS st)); simpl.
  - apply Inv_no_bid; try done; apply HI.
  - split; try apply HI. intros b p _. unfold get_current_player. simpl.
    destruct (AUCTION_STARTED st); simpl; [|done].
    destruct (Z.ltb_spec (CURRENT_INDEX st) 0); simpl; [done|].
    by destruct (Z.of_nat 0 <=? CURRENT_INDEX st)%Z.
Qed.

Lemma start_auction_Inv s draws st : Inv st → Inv (start_auction s draws st).1.
Proof.
  intros HI. unfold start_auction. destruct (is_admin s); [|done].
  destruct (nonempty (PLAYERS st)); [|done]. simpl.
  by apply build_auction_order_Inv.
Qed.

Lemma end_auction_Inv s st : Inv st → Inv (end_auction s st).1.
Proof.
  intros HI. unfold end_auction. destruct (is_admin s); [|done].
  apply Inv_no_bid; try done; apply HI.
Qed.

Lemma current_team_lookup s st team :
  current_team s st = Some team →
  ∃ k, session_team_name s = Some k ∧ TEAMS st !! k = Some team.
Proof.
  unfold current_team. destruct (session_team_name s) as [k|]; [|done].
  destruct (truthy k); [|done]. eauto.
Qed.

Lemma place_bid_Inv s amount_field st :
  Inv st → Inv (place_bid s amount_field st).1.
Proof.
  intros HI. unfold place_bid.
  destruct (AUCTION_STARTED st) eqn:Hs; [|done]. simpl.
  destruct (current_team s st) as [team|] eqn:Ht; [|done].
  destruct (get_current_player st) as [player|] eqn:Hp; [|done].
  destruct (default (Some 0) amount_field) as [a|]; [|done].
  destruct (Qle_bool a 0) eqn:Hpos; [done|].
  destruct (Qlt_bool a _) eqn:Hlow; [done|].
  destruct (Qlt_bool _ a) eqn:Hpurse; [done|].
  simpl. apply Qle_bool_false in Hpos.
  apply Qlt_bool_false in Hlow, Hpurse.
  destruct (current_team_lookup _ _ _ Ht) as (k & _ & Hk).
  split; simpl; try apply HI.
  - by intros b [= <-].
  - by intros b [= <-].
  - intros b p [= <-] Hp'. simpl.
    change (get_current_player st = Some p) in Hp'.
    assert (p = player) as -> by congruence.
    pose proof (py_max_l (base_price player / 100)
      match amount <$> CURRENT_BID st with
      | Some leader => leader + increment
      | None => base_price player / 100
      end). lra.
  - intros b [= <-]. simpl. exists team.
    by rewrite (inv_team_names _ HI _ _ Hk).
Qed.

Lemma sell_player_Inv s st : Inv st → Inv (sell_player s st).1.
Proof.
  intros HI. unfold sell_player. destruct (is_admin s); [|done].
  destruct (AUCTION_STARTED st); [|done]. simpl.
  destruct (get_current_player st) as [p|]; [|done].
  destruct (CURRENT_BID st) as [b|]; [|done].
  destruct (TEAMS st !! team_name b) as [t|] eqn:Ht; [|done].
  simpl. apply Inv_no_bid; simpl; try done; try apply HI.
  intros k t'. rewrite lookup_insert. case_decide.
  - intros [= <-]. simpl. subst. by apply HI.
  - apply HI.
Qed.

Lemma unsold_player_Inv s st : Inv st → Inv (unsold_player s st).1.
Proof.
  intros HI. unfold unsold_player. destruct (is_admin s); [|done].
  destruct (AUCTION_STARTED st); [|done]. simpl.
  destruct (get_current_player st) as [p|]; [|done].
  apply Inv_no_bid; try done; apply HI.
Qed.

Lemma next_player_Inv s st : Inv st → Inv (next_player s st).1.
Proof.
  intros HI. unfold next_player. destruct (is_admin s); [|done].
  destruct (AUCTION_STARTED st); [|done].
  apply Inv_no_bid; try done; apply HI.
Qed.

Lemma serve_Inv w client r :
  Inv (globals w) → Inv (globals (serve w client r).1).
Proof.
  intros HI. unfold serve. destruct r.
  - simpl. by apply load_players_auto_Inv, init_teams_Inv.
  - pose proof (select_team_Inv (session_of w client) None _ HI) as H.
    by destruct (select_team _ _ _) as [[? ?] ?].
  - pose proof (select_team_Inv (session_of w client)
                  (Some (team, display_name)) _ HI) as H.
    by destruct (select_team _ _ _) as [[? ?] ?].
  - pose proof (unselect_team_Inv (session_of w client) _ HI) as H.
    by destruct (unselect_team _ _) as [[? ?] ?].
  - by destruct (admin_login _ _).
  - by destruct (admin_login _ _).
  - by destruct (admin_logout _).
  - pose proof (admin_dashboard_Inv (session_of w client) None (disk w) _ HI).
    by destruct (admin_dashboard _ _ _ _).
  - pose proof (admin_dashboard_Inv (session_of w client) (Some form)
                  (disk w) _ HI).
    by destruct (admin_dashboard _ _ _ _).
  - pose proof (upload_players_Inv (session_of w client) file (disk w) _ HI).
    by destruct (upload_players _ _ _ _) as [[? ?] ?].
  - pose proof (start_auction_Inv (session_of w client) draws _ HI).
    by destruct (start_auction _ _ _).
  - pose proof (end_auction_Inv (session_of w client) _ HI).
    by destruct (end_auction _ _).
  - simpl. by apply load_players_auto_Inv, init_teams_Inv.
  - pose proof (place_bid_Inv (session_of w client) amount_field _ HI).
    by destruct (place_bid _ _ _).
  - pose proof (sell_player_Inv (session_of w client) _ HI).
    by destruct (sell_player _ _).
  - pose proof (unsold_player_Inv (session_of w client) _ HI).
    by destruct (unsold_player _ _).
  - pose proof (next_player_Inv (session_of w client) _ HI).
    by destruct (next_player _ _).
Qed.

Lemma run_Inv trace w : Inv (globals w) → Inv (globals (run w trace)).
Proof.
  revert w. induction trace as [|[c r] trace IH]; intros w HI; simpl.
  - done.
  - apply IH. by apply serve_Inv.
Qed.

Lemma reachable_Inv w : reachable w → Inv (globals w).
Proof.
  intros (d & trace & ->). apply run_Inv, Inv_module_globals.
Qed.

Lemma run_reachable w trace : reachable w → reachable (run w trace).
Proof.
  intros (d & tr0 & ->). exists d, (tr0 ++ trace).
  unfold run. by rewrite foldl_app.
Qed.

Lemma boot_reachable d : reachable (boot d).
Proof. by exists d, []. Qed.

(** ** Bidding *)

Lemma reachable_leader_above_base w b p :
  reachable w →
  CURRENT_BID (globals w) = Some b →
  get_current_player (globals w) = Some p →
  base_price p / 100 <= amount b + increment.
Proof.
  intros Hr Hb Hp. pose proof (inv_bid_base _ (reachable_Inv _ Hr) b p Hb Hp).
  unfold tolerance, increment in *. lra.
Qed.

Lemma place_bid_checks s a st team player :
  AUCTION_STARTED st = true →
  current_team s st = Some team →
  get_current_player st = Some player →
  0 < a →
  place_bid s (Some (Some a)) st =
    if Qlt_bool a (min_allowed st player - tolerance)
    then (st, BidTooLow (min_allowed st player))
    else if Qlt_bool (purse_remaining team + tolerance) a
    then (st, InsufficientPurse)
    else (set_CURRENT_BID (Some (mkBid (id player) (name team) a)) st,
          BidPlaced (name team) a).
Proof.
  intros Hs Ht Hp Ha. unfold place_bid, min_allowed.
  rewrite Hs, Ht, Hp. simpl.
  apply Qle_bool_false in Ha. rewrite Ha.
  by destruct (CURRENT_BID st).
Qed.



(** C9: a franchise may outbid itself.  In a reachable state with a
    player under the hammer whose leading bid is held by the team of the
    caller, a bid of at least the leading amount plus the increment that
    the remaining purse of the team covers is accepted and becomes the
    leading bid. *)
Theorem franchise_may_outbid_itself w s team player b a :
  reachable w →
  get_current_player (globals w) = Some player →
  current_team s (globals w) = Some team →
  CURRENT_BID (globals w) = Some b →
  team_name b = name team →
  amount b + increment <= a →
  a <= purse_remaining team →
  place_bid s (Some (Some a)) (globals w) =
    (set_CURRENT_BID (Some (mkBid (id player) (name team) a)) (globals w),
     BidPlaced (name team) a).
Proof.
  intros Hr Hp Ht Hb Hsame Hmin Hpurse.
  pose proof (reachable_Inv _ Hr) as HI.
  pose proof (inv_bid_started _ HI b Hb) as Hs.
  pose proof (inv_bid_positive _ HI b Hb) as Hpos.
  pose proof (reachable_leader_above_base w b player Hr Hb Hp) as Hbase.
  assert (Ha : 0 < a) by (unfold increment in *; lra).
  rewrite (place_bid_checks s a _ team player Hs Ht Hp Ha).
  assert (Hm : min_allowed (globals w) player == amount b + increment).
  { unfold min_allowed. rewrite Hb. by apply py_max_right. }
  destruct (Qlt_bool a _) eqn:Hlow.
  { apply Qlt_bool_iff in Hlow. rewrite Hm in Hlow.
    unfold tolerance in *. lra. }
  destruct (Qlt_bool _ a) eqn:Hhigh.
  { apply Qlt_bool_iff in Hhigh. unfold tolerance in *. lra. }
  done.
Qed.

(** In the demo run MI leads at 2.1 and raises its own bid to 2.2. *)
Lemma franchise_may_outbid_itself_witness :
  CURRENT_BID (globals demo_mi_leads) = Some (mkBid 1 "MI" (21 # 10))
  ∧ CURRENT_BID
      (place_bid mi_session (Some (Some (22 # 10))) (globals demo_mi_leads)).1
    = Some (mkBid 1 "MI" (22 # 10)).
Proof.
  split; [reflexivity|].
  assert (Hr : reachable demo_mi_leads)
    by (apply run_reachable, run_reachable, run_reachable, boot_reachable).
  rewrite (franchise_may_outbid_itself demo_mi_leads mi_session
             (mkTeam "MI" 100 100 (Some "Ravi"%string) [])
             (mkPlayer 1 1 "M1" "Virat" "Kohli" "India" 200 "BATTER")
             (mkBid 1 "MI" (21 # 10)) (22 # 10)
             Hr eq_refl eq_refl eq_refl eq_refl).
  - reflexivity.
  - vm_compute. discriminate.
  - vm_compute. discriminate.
Defined.

(** A call of [place_bid] either leaves the state as it was, or installs
    the new leading bid, whose amount then exceeds the old one by the
    increment less the tolerance. *)
Lemma place_bid_cases s amount_field st :
  ((place_bid s amount_field st).1 = st
   ∧ ∀ t a, (place_bid s amount_field st).2 ≠ BidPlaced t a)
  ∨ ∃ p t a,
      place_bid s amount_field st =
        (set_CURRENT_BID (Some (mkBid (id p) (name t) a)) st,
         BidPlaced (name t) a)
      ∧ rising (amount <$> CURRENT_BID st) [a].
Proof.
  unfold place_bid.
  destruct (AUCTION_STARTED st); simpl; [|by left].
  destruct (current_team s st) as [team|]; [|by left].
  destruct (get_current_player st) as [player|]; [|by left].
  destruct (default (Some 0) amount_field) as [a|]; [|by left].
  destruct (Qle_bool a 0); [by left|].
  destruct (Qlt_bool a _) eqn:Hlow; [by left|].
  destruct (Qlt_bool _ a); [by left|].
  right. exists player, team, a. split; [done|]. simpl. split; [|done].
  intros y Hy. apply Qlt_bool_false in Hlow.
  destruct (CURRENT_BID st) as [b|]; simpl in *; [|done].
  injection Hy as <-.
  pose proof (py_max_r (base_price player / 100) (amount b + increment)).
  lra.
Qed.

Lemma place_bid_frame s amount_field st :
  let st' := (place_bid s amount_field st).1 in
  PLAYERS st' = PLAYERS st ∧ TEAMS st' = TEAMS st
  ∧ SOLD_PLAYERS st' = SOLD_PLAYERS st
  ∧ AUCTION_STARTED st' = AUCTION_STARTED st
  ∧ AUCTION_ORDER st' = AUCTION_ORDER st
  ∧ CURRENT_INDEX st' = CURRENT_INDEX st.
Proof.
  cbv zeta.
  destruct (place_bid_cases s amount_field st)
    as [[E _]|(p & t & a & E & _)]; by rewrite E.
Qed.






(** ** The auction order *)

Lemma insert_Permutation_cons {A} (x : list A) j a b :
  x !! j = Some b → b :: <[j := a]> x ≡ₚ a :: x.
Proof.
  revert j. induction x as [|c x IH]; intros [|j] H; simplify_eq/=.
  - apply perm_swap.
  - rewrite (perm_swap c b), (IH j H). apply perm_swap.
Qed.

Lemma swap_Permutation {A} i j (x : list A) : swap i j x ≡ₚ x.
Proof.
  unfold swap. destruct (x !! i) as [a|] eqn:Hi; [|done].
  destruct (x !! j) as [b|] eqn:Hj; [|done].
  revert i j Hi Hj.
  induction x as [|c x IH]; intros [|i] [|j] Hi Hj; simplify_eq/=.
  - done.
  - by apply insert_Permutation_cons.
  - by apply insert_Permutation_cons.
  - by rewrite IH.
Qed.

Lemma shuffle_from_Permutation {A} i draws (x : list A) :
  (shuffle_from i draws x).1 ≡ₚ x.
Proof.
  revert draws x. induction i as [|i IH]; intros draws x; [done|].
  cbn [shuffle_from].
  destruct (randbelow (S (S i)) draws) as [j draws'].
  rewrite IH. apply swap_Permutation.
Qed.

Lemma shuffle_Permutation {A} draws (x : list A) : (shuffle draws x).1 ≡ₚ x.
Proof. apply shuffle_from_Permutation. Qed.

Lemma group_foldl_lookup l (acc : gmap Z (list Player)) k :
  default []
    (foldl (λ sets p,
              <[set_no p := default [] (sets !! set_no p) ++ [p]]> sets)
           acc l !! k)
  = default [] (acc !! k) ++ filter (λ p, set_no p = k) l.
Proof.
  revert acc. induction l as [|a l IH]; intros acc; simpl.
  - by rewrite app_nil_r.
  - rewrite IH. destruct (decide (set_no a = k)) as [E|Hne].
    + rewrite filter_cons_True by done. subst k.
      rewrite lookup_insert_eq. simpl. by rewrite <-app_assoc.
    + by rewrite lookup_insert_ne, filter_cons_False.
Qed.

Lemma group_by_set_lookup l k :
  default [] (group_by_set l !! k) = filter (λ p, set_no p = k) l.
Proof.
  unfold group_by_set. rewrite group_foldl_lookup. by rewrite lookup_empty.
Qed.

Lemma group_by_set_key l p :
  p ∈ l → set_no p ∈ sorted_keys (group_by_set l).
Proof.
  intros Hp. unfold sorted_keys. rewrite merge_sort_Permutation.
  pose proof (group_by_set_lookup l (set_no p)) as H.
  destruct (group_by_set l !! set_no p) as [g|] eqn:E.
  - apply list_elem_of_fmap. exists (set_no p, g). split; [done|].
    by apply elem_of_map_to_list.
  - simpl in H. assert (p ∈ filter (λ q, set_no q = set_no p) l) as Hin
      by (by apply list_elem_of_filter).
    rewrite <-H in Hin. by apply elem_of_nil in Hin.
Qed.

Lemma sorted_keys_NoDup sets : NoDup (sorted_keys sets).
Proof.
  unfold sorted_keys. rewrite merge_sort_Permutation.
  apply NoDup_fst_map_to_list.
Qed.


Lemma extend_order_players keys sets draws order :
  (extend_order keys sets draws order).1
  = order ++ (id <$> shuffled_players keys sets draws).
Proof.
  revert draws order. induction keys as [|s keys IH]; intros draws order; simpl.
  - by rewrite app_nil_r.
  - destruct (shuffle draws _) as [players draws'].
    by rewrite IH, fmap_app, app_assoc.
Qed.

Lemma shuffled_players_Permutation keys sets draws :
  shuffled_players keys sets draws ≡ₚ keys ≫= (λ k, default [] (sets !! k)).
Proof.
  revert draws. induction keys as [|s keys IH]; intros draws; simpl; [done|].
  pose proof (shuffle_Permutation draws (default [] (sets !! s))) as Hs.
  destruct (shuffle draws _) as [players draws']. simpl in Hs.
  by rewrite Hs, IH.
Qed.

Lemma bind_filter_nil (keys : list Z) :
  keys ≫= (λ k, filter (λ p : Player, set_no p = k) []) = [].
Proof. induction keys as [|k keys IH]; [done|]. by rewrite bind_cons, IH. Qed.

Lemma bind_filter_cons_notin (keys : list Z) a l :
  set_no a ∉ keys →
  keys ≫= (λ k, filter (λ p, set_no p = k) (a :: l))
  = keys ≫= (λ k, filter (λ p, set_no p = k) l).
Proof.
  induction keys as [|k keys IH]; intros Hn; [done|].
  apply not_elem_of_cons in Hn as [Hne Hn].
  by rewrite !bind_cons, filter_cons_False, IH.
Qed.

Lemma bind_filter_cons_in (keys : list Z) a l :
  NoDup keys → set_no a ∈ keys →
  keys ≫= (λ k, filter (λ p, set_no p = k) (a :: l))
  ≡ₚ a :: keys ≫= (λ k, filter (λ p, set_no p = k) l).
Proof.
  induction keys as [|k keys IH]; intros Hnd Hin.
  - by apply elem_of_nil in Hin.
  - apply NoDup_cons in Hnd as [Hk Hnd]. rewrite !bind_cons.
    destruct (decide (set_no a = k)) as [E|Hne].
    + rewrite filter_cons_True by done. subst k.
      by rewrite bind_filter_cons_notin.
    + apply elem_of_cons in Hin as [?|Hin]; [done|].
      rewrite filter_cons_False, IH by done.
      by rewrite Permutation_middle.
Qed.

Lemma bind_filter_Permutation (keys : list Z) l :
  NoDup keys → (∀ p, p ∈ l → set_no p ∈ keys) →
  keys ≫= (λ k, filter (λ p, set_no p = k) l) ≡ₚ l.
Proof.
  intros Hnd. induction l as [|a l IH]; intros Hin.
  - by rewrite bind_filter_nil.
  - rewrite bind_filter_cons_in; [|done|apply Hin; by left].
    rewrite IH; [done|]. intros p Hp. apply Hin. by right.
Qed.

Lemma dict_values_Permutation (m : gmap Z Player) :
  dict_values m ≡ₚ (map_to_list m).*2.
Proof. unfold dict_values. by rewrite merge_sort_Permutation. Qed.

Lemma ordered_players_Permutation draws st :
  ordered_players draws st ≡ₚ (map_to_list (PLAYERS st)).*2.
Proof.
  unfold ordered_players. rewrite shuffled_players_Permutation.
  rewrite <-dict_values_Permutation.
  set (l := dict_values (PLAYERS st)).
  erewrite list_bind_ext; [|intros k; apply group_by_set_lookup|done].
  apply bind_filter_Permutation.
  - apply sorted_keys_NoDup.
  - apply group_by_set_key.
Qed.




Lemma build_auction_order_nonempty draws st :
  nonempty (PLAYERS st) = true →
  build_auction_order draws st =
    mkState (PLAYERS st) (TEAMS st) true (id <$> ordered_players draws st)
            0%Z None (SOLD_PLAYERS st).
Proof.
  intros Hne. unfold build_auction_order. simpl. rewrite Hne. simpl.
  unfold_setters. simpl. by rewrite extend_order_players.
Qed.

Lemma nonempty_iff `{Countable K} {A} (m : gmap K A) :
  nonempty m = true ↔ m ≠ ∅.
Proof.
  split; [apply nonempty_true|]. intros Hne.
  destruct (nonempty m) eqn:E; [done|]. by apply nonempty_false in E.
Qed.



(** ** Starting again *)

(** C10: [build_auction_order], and so the start route, leaves the
    outcomes, the teams (squads and remaining purses) and the catalog as
    they are, and [end_auction] does too: what one run recorded and spent
    is still there in the next.  [sell_player] writes the outcome of the
    player under the hammer and debits the winner without looking at the
    outcome already recorded for that player.  So a player sold in one run
    can be sold again in the next: in the demo run, restarted after the
    sale to MI for 2.1, MI buys the same player again for 2.5; the outcome
    then reads 2.5, the purse has been debited twice and the squad lists
    the player twice. *)
Theorem restart_keeps_outcomes_and_purses :
  (∀ draws st,
     SOLD_PLAYERS (build_auction_order draws st) = SOLD_PLAYERS st
     ∧ TEAMS (build_auction_order draws st) = TEAMS st
     ∧ PLAYERS (build_auction_order draws st) = PLAYERS st)
  ∧ (∀ s draws st,
       SOLD_PLAYERS (start_auction s draws st).1 = SOLD_PLAYERS st
       ∧ TEAMS (start_auction s draws st).1 = TEAMS st
       ∧ PLAYERS (start_auction s draws st).1 = PLAYERS st)
  ∧ (∀ s st,
       SOLD_PLAYERS (end_auction s st).1 = SOLD_PLAYERS st
       ∧ TEAMS (end_auction s st).1 = TEAMS st
       ∧ PLAYERS (end_auction s st).1 = PLAYERS st)
  ∧ (∀ s st player team price,
       (sell_player s st).2 = SoldTo player team price →
       ∃ p b t,
         get_current_player st = Some p ∧ CURRENT_BID st = Some b
         ∧ TEAMS st !! team_name b = Some t
         ∧ SOLD_PLAYERS (sell_player s st).1
           = <[id p := mkSold (full_name p) (Some (name t)) (amount b)]>
               (SOLD_PLAYERS st)
         ∧ TEAMS (sell_player s st).1 !! team_name b
           = Some (mkTeam (name t) (purse_total t)
                     (purse_remaining t - amount b) (taken_by t)
                     (squad t ++ [id p])))
  ∧ (reachable demo_resold
     ∧ AUCTION_STARTED (globals demo_sold) = true
     ∧ SOLD_PLAYERS (globals demo_sold) !! 1%Z
       = Some (mkSold "Virat Kohli" (Some "MI"%string) (21 # 10))
     ∧ TEAMS (globals demo_sold) !! "MI"%string
       = Some (mkTeam "MI" 100 (100 - (21 # 10)) (Some "Ravi"%string) [1%Z])
     ∧ SOLD_PLAYERS (globals demo_restarted) = SOLD_PLAYERS (globals demo_sold)
     ∧ TEAMS (globals demo_restarted) = TEAMS (globals demo_sold)
     ∧ CURRENT_INDEX (globals demo_restarted) = 0%Z
     ∧ SOLD_PLAYERS (globals demo_resold) !! 1%Z
       = Some (mkSold "Virat Kohli" (Some "MI"%string) (5 # 2))
     ∧ TEAMS (globals demo_resold) !! "MI"%string
       = Some (mkTeam "MI" 100 (100 - (21 # 10) - (5 # 2))
                 (Some "Ravi"%string) [1%Z; 1%Z])).
Proof.
  split; [|split; [|split; [|split]]].
  - intros draws st. unfold build_auction_order. simpl.
    by destruct (nonempty (PLAYERS st)).
  - intros s draws st. unfold start_auction, build_auction_order. simpl.
    destruct (is_admin s); [|done]. simpl.
    by destruct (nonempty (PLAYERS st)).
  - intros s st. unfold end_auction. by destruct (is_admin s).
  - intros s st player team price H.
    destruct (sell_player_success _ _ _ _ _ H)
      as (p & b & t & _ & _ & Hp & Hb & Ht & ->).
    exists p, b, t. simpl. by rewrite lookup_insert_eq.
  - split.
    { do 6 apply run_reachable. apply boot_reachable. }
    repeat split; vm_compute; reflexivity.
Qed.

(** The general statement about [sell_player], applied to the second sale
    of the demo run. *)
Lemma restart_keeps_outcomes_and_purses_witness :
  (sell_player admin_session
     (run demo_restarted [(2%nat, PostBid (Some (Some (5 # 2))))]).(globals)).2
  = SoldTo "Virat Kohli" "MI" (5 # 2)
  ∧ ∃ p b t,
      SOLD_PLAYERS (globals demo_restarted) !! id p
        = Some (mkSold "Virat Kohli" (Some "MI"%string) (21 # 10))
      ∧ SOLD_PLAYERS
          (sell_player admin_session
             (run demo_restarted
                [(2%nat, PostBid (Some (Some (5 # 2))))]).(globals)).1
        = <[id p := mkSold (full_name p) (Some (name t)) (amount b)]>
            (SOLD_PLAYERS
               (run demo_restarted
                  [(2%nat, PostBid (Some (Some (5 # 2))))]).(globals)).
Proof.
  split; [reflexivity|].
  destruct restart_keeps_outcomes_and_purses as (_ & _ & _ & H & _).
  destruct (H admin_session
              (run demo_restarted
                 [(2%nat, PostBid (Some (Some (5 # 2))))]).(globals)
              "Virat Kohli"%string "MI"%string (5 # 2) eq_refl)
    as (p & b & t & Hp & Hb & Ht & Hs & _).
  exists p, b, t. split; [|exact Hs].
  vm_compute in Hp. injection Hp as <-. reflexivity.
Defined.

(** ** Restricted runs *)

Lemma reachable_by_ind ok (P : World → Prop) :
  (∀ d, P (boot d)) →
  (∀ w c r, reachable_by ok w → P w → ok w c r → P (serve w c r).1) →
  ∀ w, reachable_by ok w → P w.
Proof.
  intros Hboot Hstep w (d & trace & Hok & ->).
  assert (Hgen : ∀ trace w0,
    reachable_by ok w0 → P w0 → trace_ok ok w0 trace → P (run w0 trace)).
  { clear d trace Hok. intros trace.
    induction trace as [|[c r] trace IH]; intros w0 Hr HP Hok; simpl; [done|].
    destruct Hok as [Hok1 Hok2]. apply IH; [|by apply Hstep|done].
    destruct Hr as (d & tr0 & Htr0 & ->). exists d, (tr0 ++ [(c, r)]).
    split; [|unfold run; by rewrite foldl_app].
    clear -Htr0 Hok1. revert Htr0 Hok1. generalize (boot d).
    induction tr0 as [|cr tr0 IH]; intros w Htr0 Hok1; simpl in *.
    - done.
    - destruct Htr0 as [H1 H2]. split; [done|]. by apply IH. }
  apply Hgen; [by exists d, [] | apply Hboot | done].
Qed.

Lemma reachable_by_reachable ok w : reachable_by ok w → reachable w.
Proof. intros (d & trace & _ & ->). by exists d, trace. Qed.

(** ** What the outcomes say a franchise has spent *)

Lemma spent_empty F : spent F ∅ = 0.
Proof. unfold spent. by rewrite map_fold_empty. Qed.

Lemma spent_insert F k o (m : gmap Z Sold) :
  m !! k = None →
  spent F (<[k := o]> m) ==
    if decide (sold_team_name o = Some F) then spent F m + price_cr o
    else spent F m.
Proof.
  intros Hk. unfold spent.
  apply (map_fold_insert Qeq
    (λ _ o acc, if decide (sold_team_name o = Some F) then acc + price_cr o
                else acc)); [| |done].
  - intros j z x y Hxy. case_decide; [by rewrite Hxy | done].
  - intros j1 j2 z1 z2 y _ _ _. repeat case_decide; ring.
Qed.

(** ** The ledger of a single run *)

Lemma Ledger_same st st' :
  Ledger st →
  SOLD_PLAYERS st' = SOLD_PLAYERS st →
  PLAYERS st' = PLAYERS st →
  (∀ F, debited (TEAMS st') F == debited (TEAMS st) F) →
  (AUCTION_STARTED st' = true →
   AUCTION_STARTED st = true ∧ AUCTION_ORDER st' = AUCTION_ORDER st
   ∧ (CURRENT_INDEX st ≤ CURRENT_INDEX st')%Z) →
  Ledger st'.
Proof.
  intros HL Hsold Hpl Hdeb Hst. split.
  - intros F. rewrite Hsold, Hdeb. apply HL.
  - intros Hs. destruct (Hst Hs) as (Hs0 & -> & _). by apply HL.
  - intros pid Hs Hin. destruct (Hst Hs) as (Hs0 & -> & Hle).
    rewrite Hsold in Hin.
    destruct (ledger_passed _ HL pid Hs0 Hin) as (i & Hi & Ho).
    exists i. split; [lia | done].
  - rewrite Hsold, Hpl. apply HL.
Qed.

Lemma Ledger_reset st players :
  Ledger st → SOLD_PLAYERS st = ∅ →
  Ledger (mkState players (TEAMS st) false [] (-1)%Z None ∅).
Proof.
  intros HL Hsold. split; simpl; try done.
  intros F. rewrite <-(ledger_spent _ HL F), Hsold. done.
Qed.

Lemma Ledger_module_globals : Ledger module_globals.
Proof.
  split; simpl; done.
Qed.

Lemma default_teams_debited l (m : gmap string Team) F :
  debited m F == 0 →
  debited
    (foldl (λ teams '(name, purse),
              <[name := mkTeam name purse purse None []]> teams) m l) F
  == 0.
Proof.
  revert m. induction l as [|[n q] l IH]; intros m Hm; simpl; [done|].
  apply IH. unfold debited in *. rewrite lookup_insert. case_decide.
  - simpl. ring.
  - done.
Qed.

Lemma init_teams_Ledger st : Ledger st → Ledger (init_teams st).
Proof.
  intros HL. unfold init_teams.
  destruct (nonempty (TEAMS st)) eqn:E; [done|].
  apply nonempty_false in E.
  apply (Ledger_same st); try done.
  intros F.
  assert (H0 : debited (TEAMS st) F == 0)
    by (unfold debited; by rewrite E, lookup_empty).
  rewrite H0. exact (default_teams_debited DEFAULT_TEAMS (TEAMS st) F H0).
Qed.

Lemma load_players_auto_Ledger d st :
  Ledger st → Ledger (load_players_auto d st).
Proof.
  intros HL. unfold load_players_auto.
  destruct (nonempty (PLAYERS st)) eqn:E; [done|].
  apply nonempty_false in E.
  pose proof (ledger_catalog _ HL E) as Hsold.
  destruct (PLAYERS_PDF d) as [rows|].
  { by apply (Ledger_reset st). }
  destruct (PLAYERS_CSV d) as [rows|]; [|done].
  by apply (Ledger_reset st).
Qed.

Lemma debited_alter_taken_by v k (m : gmap string Team) F :
  debited (alter (set_taken_by v) k m) F = debited m F.
Proof.
  unfold debited. rewrite lookup_alter. case_decide; [|done].
  subst. by destruct (m !! F).
Qed.

Lemma select_team_Ledger s post st :
  Ledger st → Ledger (select_team s post st).1.1.
Proof.
  intros HL0. pose proof (init_teams_Ledger _ HL0) as HL.
  unfold select_team. set (st0 := init_teams st) in *. clearbody st0.
  destruct (AUCTION_STARTED st0) eqn:Hs; [done|].
  destruct post as [[team_field display_field]|]; [|done].
  destruct team_field as [team_name|]; [|done].
  destruct (truthy team_name); [|done]. simpl.
  destruct (TEAMS st0 !! team_name) as [team|]; [|done].
  destruct (truthy_opt (taken_by team)); [done|].
  simpl. apply (Ledger_same st0); try done.
  intros F. simpl. rewrite debited_alter_taken_by.
  destruct (current_team s st0), (session_team_name s); try done.
  by rewrite debited_alter_taken_by.
Qed.

Lemma unselect_team_Ledger s st : Ledger st → Ledger (unselect_team s st).1.1.
Proof.
  intros HL0. pose proof (init_teams_Ledger _ HL0) as HL.
  unfold unselect_team. set (st0 := init_teams st) in *. clearbody st0.
  destruct (AUCTION_STARTED st0) eqn:Hs; [done|].
  destruct (current_team s st0), (session_team_name s); try done.
  simpl. apply (Ledger_same st0); try done.
  intros F. simpl. by rewrite debited_alter_taken_by.
Qed.

Lemma init_load_sold d st :
  SOLD_PLAYERS st = ∅ → SOLD_PLAYERS (load_players_auto d (init_teams st)) = ∅.
Proof.
  intros H. unfold load_players_auto, init_teams.
  destruct (nonempty (TEAMS st)), (nonempty (PLAYERS _)); simpl; try done;
    by destruct (PLAYERS_PDF d), (PLAYERS_CSV d).
Qed.

Lemma init_load_started d st :
  AUCTION_STARTED st = false →
  AUCTION_STARTED (load_players_auto d (init_teams st)) = false.
Proof.
  intros H. unfold load_players_auto, init_teams.
  destruct (nonempty (TEAMS st)), (nonempty (PLAYERS _)); simpl; try done;
    by destruct (PLAYERS_PDF d), (PLAYERS_CSV d).
Qed.

Lemma admin_dashboard_Ledger s post d st :
  Ledger st →
  (∀ form, post = Some form → is_admin s = true →
           SOLD_PLAYERS st = ∅ ∧ AUCTION_STARTED st = false) →
  Ledger (admin_dashboard s post d st).1.
Proof.
  intros HL0 Hok.
  pose proof (load_players_auto_Ledger d _ (init_teams_Ledger _ HL0)) as HL.
  unfold admin_dashboard.
  pose proof (init_load_sold d st) as Hsold.
  pose proof (init_load_started d st) as Hst.
  set (st0 := load_players_auto d (init_teams st)) in *. clearbody st0.
  destruct (is_admin s); [|done]. destruct post as [form|]; [|done].
  destruct (Hok form eq_refl eq_refl) as [H1 H2].
  specialize (Hsold H1). specialize (Hst H2). simpl.
  apply (Ledger_same st0); try done.
  intros F. simpl. unfold debited. rewrite map_lookup_imap.
  pose proof (ledger_spent _ HL F) as HF. unfold debited in HF.
  rewrite Hsold, spent_empty in HF.
  destruct (TEAMS st0 !! F) as [t|]; simpl; [|done].
  rewrite Hst. unfold update_purse.
  destruct (form !! _) as [[v|]|]; simpl; try done.
  rewrite <-HF. ring.
Qed.

Lemma upload_players_Ledger s file d st :
  Ledger st →
  (is_admin s = true → SOLD_PLAYERS st = ∅) →
  Ledger (upload_players s file d st).1.1.
Proof.
  intros HL Hok. unfold upload_players.
  destruct (is_admin s); [|done]. specialize (Hok eq_refl).
  destruct file as [[rows|rows|]|]; simpl; try done;
    by apply (Ledger_reset st).
Qed.

Lemma ordered_players_ids_NoDup draws st :
  Inv st → NoDup (id <$> ordered_players draws st).
Proof.
  intros HI. rewrite ordered_players_Permutation.
  assert (E : id <$> (map_to_list (PLAYERS st)).*2 = (map_to_list (PLAYERS st)).*1).
  { rewrite <-list_fmap_compose. apply list_fmap_ext.
    intros i [k p] Hkp. simpl. apply list_elem_of_lookup_2 in Hkp.
    apply elem_of_map_to_list in Hkp. by apply HI. }
  rewrite E. apply NoDup_fst_map_to_list.
Qed.

Lemma start_auction_Ledger s draws st :
  Inv st → Ledger st →
  (is_admin s = true → SOLD_PLAYERS st = ∅) →
  Ledger (start_auction s draws st).1.
Proof.
  intros HI HL Hok. unfold start_auction.
  destruct (is_admin s); [|done]. specialize (Hok eq_refl).
  destruct (nonempty (PLAYERS st)) eqn:Hne; [|done]. simpl.
  rewrite build_auction_order_nonempty by done.
  split; simpl; try apply HL.
  - intros _. by apply ordered_players_ids_NoDup.
  - intros pid _ [o Ho]. by rewrite Hok, lookup_empty in Ho.
Qed.

Lemma end_auction_Ledger s st : Ledger st → Ledger (end_auction s st).1.
Proof.
  intros HL. unfold end_auction. destruct (is_admin s); [|done].
  by apply (Ledger_same st).
Qed.

Lemma place_bid_Ledger s amount_field st :
  Ledger st → Ledger (place_bid s amount_field st).1.
Proof.
  intros HL.
  destruct (place_bid_cases s amount_field st)
    as [[-> _]|(p & t & a & -> & _)]; [done|].
  simpl. by apply (Ledger_same st).
Qed.

Lemma next_player_Ledger s st : Ledger st → Ledger (next_player s st).1.
Proof.
  intros HL. unfold next_player. destruct (is_admin s); [|done].
  destruct (AUCTION_STARTED st) eqn:Hs; [|done]. simpl.
  apply (Ledger_same st); try done. simpl. intros _.
  split; [done|]. split; [done|lia].
Qed.

Lemma current_player_fresh st p :
  Inv st → Ledger st → get_current_player st = Some p →
  AUCTION_STARTED st = true
  ∧ (0 ≤ CURRENT_INDEX st)%Z
  ∧ AUCTION_ORDER st !! Z.to_nat (CURRENT_INDEX st) = Some (id p)
  ∧ PLAYERS st !! id p = Some p
  ∧ SOLD_PLAYERS st !! id p = None.
Proof.
  intros HI HL. unfold get_current_player.
  destruct (AUCTION_STARTED st) eqn:Hs; [|done]. simpl.
  destruct (Z.ltb_spec (CURRENT_INDEX st) 0); [done|]. simpl.
  destruct (_ <=? _)%Z; [done|].
  destruct (AUCTION_ORDER st !! _) as [pid|] eqn:Ho; [|done].
  intros Hp. pose proof (inv_player_ids _ HI _ _ Hp) as Hid. subst pid.
  repeat split; try done.
  destruct (SOLD_PLAYERS st !! id p) as [o|] eqn:Hsold; [|done].
  destruct (ledger_passed _ HL (id p) Hs) as (i & Hi & Hoi); [by eexists|].
  pose proof (NoDup_lookup _ _ _ _ (ledger_order _ HL Hs) Hoi Ho). lia.
Qed.

Lemma advance_Ledger st p o teams :
  Inv st → Ledger st → get_current_player st = Some p →
  (∀ F, debited teams F ==
        if decide (sold_team_name o = Some F)
        then debited (TEAMS st) F + price_cr o
        else debited (TEAMS st) F) →
  Ledger (mkState (PLAYERS st) teams true (AUCTION_ORDER st)
            (CURRENT_INDEX st + 1)%Z None
            (<[id p := o]> (SOLD_PLAYERS st))).
Proof.
  intros HI HL Hp Hdeb.
  destruct (current_player_fresh st p HI HL Hp) as (Hs & Hidx & Ho & Hpl & Hfresh).
  split; simpl.
  - intros F. rewrite spent_insert, Hdeb by done.
    case_decide; by rewrite (ledger_spent _ HL F).
  - intros _. by apply HL.
  - intros pid _. rewrite lookup_insert. case_decide as E.
    + intros _. subst pid. exists (Z.to_nat (CURRENT_INDEX st)).
      split; [lia | done].
    + intros Hin. destruct (ledger_passed _ HL pid Hs Hin) as (i & Hi & Hoi).
      exists i. split; [lia | done].
  - intros E. by rewrite E, lookup_empty in Hpl.
Qed.

Lemma sell_player_Ledger s st :
  Inv st → Ledger st → Ledger (sell_player s st).1.
Proof.
  intros HI HL. unfold sell_player. destruct (is_admin s); [|done].
  destruct (AUCTION_STARTED st) eqn:Hs; [|done]. simpl.
  destruct (get_current_player st) as [p|] eqn:Hp; [|done].
  destruct (CURRENT_BID st) as [b|] eqn:Hb; [|done].
  destruct (TEAMS st !! team_name b) as [t|] eqn:Ht; [|done].
  simpl. unfold_setters. simpl. rewrite Hs.
  apply advance_Ledger; try done.
  intros F. simpl. unfold debited at 1. rewrite lookup_insert.
  pose proof (inv_team_names _ HI _ _ Ht) as Hname.
  case_decide as E1; case_decide as E2; simplify_eq/=.
  - unfold debited. rewrite Ht. ring.
  - exfalso. apply E2. by rewrite Hname.
  - done.
Qed.

Lemma unsold_player_Ledger s st :
  Inv st → Ledger st → Ledger (unsold_player s st).1.
Proof.
  intros HI HL. unfold unsold_player. destruct (is_admin s); [|done].
  destruct (AUCTION_STARTED st) eqn:Hs; [|done]. simpl.
  destruct (get_current_player st) as [p|] eqn:Hp; [|done].
  simpl. unfold_setters. simpl. rewrite Hs.
  by apply advance_Ledger.
Qed.

Lemma serve_Ledger w client r :
  Inv (globals w) → Ledger (globals w) → single_run w client r →
  Ledger (globals (serve w client r).1).
Proof.
  intros HI HL Hok. unfold serve. destruct r; simpl in Hok.
  - simpl. by apply load_players_auto_Ledger, init_teams_Ledger.
  - pose proof (select_team_Ledger (session_of w client) None _ HL) as H.
    by destruct (select_team _ _ _) as [[? ?] ?].
  - pose proof (select_team_Ledger (session_of w client)
                  (Some (team, display_name)) _ HL) as H.
    by destruct (select_team _ _ _) as [[? ?] ?].
  - pose proof (unselect_team_Ledger (session_of w client) _ HL) as H.
    by destruct (unselect_team _ _) as [[? ?] ?].
  - by destruct (admin_login _ _).
  - by destruct (admin_login _ _).
  - by destruct (admin_logout _).
  - pose proof (admin_dashboard_Ledger (session_of w client) None (disk w)
                  _ HL) as H.
    destruct (admin_dashboard _ _ _ _). by apply H.
  - pose proof (admin_dashboard_Ledger (session_of w client) (Some form)
                  (disk w) _ HL) as H.
    destruct (admin_dashboard _ _ _ _). apply H. by intros ? [= <-].
  - pose proof (upload_players_Ledger (session_of w client) file (disk w)
                  _ HL Hok) as H.
    by destruct (upload_players _ _ _ _) as [[? ?] ?].
  - pose proof (start_auction_Ledger (session_of w client) draws _ HI HL Hok).
    by destruct (start_auction _ _ _).
  - pose proof (end_auction_Ledger (session_of w client) _ HL).
    by destruct (end_auction _ _).
  - simpl. by apply load_players_auto_Ledger, init_teams_Ledger.
  - pose proof (place_bid_Ledger (session_of w client) amount_field _ HL).
    by destruct (place_bid _ _ _).
  - pose proof (sell_player_Ledger (session_of w client) _ HI HL).
    by destruct (sell_player _ _).
  - pose proof (unsold_player_Ledger (session_of w client) _ HI HL).
    by destruct (unsold_player _ _).
  - pose proof (next_player_Ledger (session_of w client) _ HL).
    by destruct (next_player _ _).
Qed.

Lemma single_run_Ledger w : reachable_by single_run w → Ledger (globals w).
Proof.
  apply (reachable_by_ind single_run (λ w, Ledger (globals w))).
  - intros d. apply Ledger_module_globals.
  - intros w0 c r Hr HL Hok. apply serve_Ledger; [|done|done].
    by apply reachable_Inv, (reachable_by_reachable single_run).
Qed.




(** ** The purses *)

Lemma purses_kept_refl st : purses_kept st st.
Proof.
  split.
  - intros F t Ht. by exists t.
  - intros F t' Ht' Hn. by rewrite Ht' in Hn.
Qed.

Lemma purses_kept_trans st1 st2 st3 :
  purses_kept st1 st2 → purses_kept st2 st3 → purses_kept st1 st3.
Proof.
  intros [F12 B12] [F23 B23]. split.
  - intros F t Ht. destruct (F12 F t Ht) as (t2 & Ht2 & E1 & E2).
    destruct (F23 F t2 Ht2) as (t3 & Ht3 & E3 & E4).
    exists t3. split; [done|]. split; congruence.
  - intros F t3 Ht3 Hn. destruct (TEAMS st2 !! F) as [t2|] eqn:Ht2.
    + destruct (B12 F t2 Ht2 Hn) as [E1 E2].
      destruct (F23 F t2 Ht2) as (t3' & Ht3' & E3 & E4).
      assert (t3' = t3) as -> by congruence. split; congruence.
    + by apply (B23 F).
Qed.

Lemma purses_kept_same_teams st st' :
  TEAMS st' = TEAMS st → purses_kept st st'.
Proof.
  intros E. split.
  - intros F t Ht. exists t. by rewrite E.
  - intros F t' Ht' Hn. rewrite E in Ht'. by rewrite Ht' in Hn.
Qed.

Lemma purses_kept_alter v k st st' :
  TEAMS st' = alter (set_taken_by v) k (TEAMS st) → purses_kept st st'.
Proof.
  intros E. split; rewrite E.
  - intros F t Ht. rewrite lookup_alter. case_decide.
    + subst. rewrite Ht. simpl. by eexists.
    + by exists t.
  - intros F t'. rewrite lookup_alter. case_decide as E'.
    + subst. intros Ht' Hn. by rewrite Hn in Ht'.
    + intros Ht' Hn. by rewrite Hn in Ht'.
Qed.

Lemma default_teams_purses l (m : gmap string Team) F t :
  Forall (λ nq, nq.2 = 100) l →
  foldl (λ teams '(name, purse),
           <[name := mkTeam name purse purse None []]> teams) m l !! F
  = Some t →
  m !! F = Some t ∨ (purse_total t = 100 ∧ purse_remaining t = 100).
Proof.
  revert m. induction l as [|[n q] l IH]; intros m Hl H; simpl in *.
  - by left.
  - apply Forall_cons in Hl as [Hq Hl]. simpl in Hq. subst q.
    destruct (IH _ Hl H) as [H1|H1]; [|by right].
    rewrite lookup_insert in H1. case_decide.
    + injection H1 as <-. by right.
    + by left.
Qed.

Lemma DEFAULT_TEAMS_purses : Forall (λ nq, nq.2 = 100) DEFAULT_TEAMS.
Proof. unfold DEFAULT_TEAMS. repeat constructor. Qed.

Lemma default_teams_keep l (m : gmap string Team) F t :
  m !! F = Some t →
  nonempty m = false →
  foldl (λ teams '(name, purse),
           <[name := mkTeam name purse purse None []]> teams) m l !! F
  = Some t.
Proof.
  intros Ht Hne. apply nonempty_false in Hne. by rewrite Hne in Ht.
Qed.

Lemma init_teams_purses_kept st : purses_kept st (init_teams st).
Proof.
  unfold init_teams. destruct (nonempty (TEAMS st)) eqn:E.
  - apply purses_kept_refl.
  - split.
    + intros F t Ht. apply nonempty_false in E. by rewrite E in Ht.
    + intros F t' Ht' Hn.
      destruct (default_teams_purses DEFAULT_TEAMS (TEAMS st) F t'
                  DEFAULT_TEAMS_purses Ht') as [H|H]; [|done].
      by rewrite Hn in H.
Qed.

Lemma load_players_auto_teams d st :
  TEAMS (load_players_auto d st) = TEAMS st.
Proof.
  unfold load_players_auto. destruct (nonempty (PLAYERS st)); [done|].
  by destruct (PLAYERS_PDF d), (PLAYERS_CSV d).
Qed.

Lemma init_load_purses_kept d st :
  purses_kept st (load_players_auto d (init_teams st)).
Proof.
  eapply purses_kept_trans; [apply init_teams_purses_kept|].
  apply purses_kept_same_teams, load_players_auto_teams.
Qed.









Lemma globals_serve w client r :
  globals (serve w client r).1 =
    let s := session_of w client in
    let st := globals w in
    match r with
    | GetHome => (home (disk w) st).1
    | GetSelectTeam => (select_team s None st).1.1
    | PostSelectTeam team display_name =>
        (select_team s (Some (team, display_name)) st).1.1
    | GetUnselectTeam => (unselect_team s st).1.1
    | GetAdminLogin | PostAdminLogin _ | GetAdminLogout => st
    | GetAdmin => (admin_dashboard s None (disk w) st).1
    | PostAdmin form => (admin_dashboard s (Some form) (disk w) st).1
    | PostUpload file => (upload_players s file (disk w) st).1.1
    | PostStart draws => (start_auction s draws st).1
    | PostEnd => (end_auction s st).1
    | GetAuction => (auction_room (disk w) st).1
    | PostBid amount_field => (place_bid s amount_field st).1
    | PostSell => (sell_player s st).1
    | PostUnsold => (unsold_player s st).1
    | PostNext => (next_player s st).1
    end.
Proof.
  unfold serve. destruct r; cbv zeta; try done;
    try (by destruct (select_team _ _ _) as [[? ?] ?]);
    try (by destruct (unselect_team _ _) as [[? ?] ?]);
    try (by destruct (admin_login _ _));
    try (by destruct (admin_logout _));
    try (by destruct (admin_dashboard _ _ _ _));
    try (by destruct (upload_players _ _ _ _) as [[? ?] ?]);
    try (by destruct (start_auction _ _ _));
    try (by destruct (end_auction _ _));
    try (by destruct (place_bid _ _ _));
    try (by destruct (sell_player _ _));
    try (by destruct (unsold_player _ _));
    by destruct (next_player _ _).
Qed.



Lemma sell_player_teams s st :
  TEAMS (sell_player s st).1 = TEAMS st
  ∨ ∃ p b t,
      CURRENT_BID st = Some b ∧ TEAMS st !! team_name b = Some t
      ∧ TEAMS (sell_player s st).1
        = <[team_name b :=
              mkTeam (name t) (purse_total t) (purse_remaining t - amount b)
                     (taken_by t) (squad t ++ [id p])]> (TEAMS st).
Proof.
  unfold sell_player. destruct (is_admin s); [|by left].
  destruct (AUCTION_STARTED st); [|by left]. simpl.
  destruct (get_current_player st) as [p|]; [|by left].
  destruct (CURRENT_BID st) as [b|]; [|by left].
  destruct (TEAMS st !! team_name b) as [t|] eqn:Ht; [|by left].
  right. by exists p, b, t.
Qed.

Lemma admin_dashboard_edit s form d st :
  let st0 := load_players_auto d (init_teams st) in
  AUCTION_STARTED (admin_dashboard s (Some form) d st).1 = AUCTION_STARTED st0
  ∧ TEAMS (admin_dashboard s (Some form) d st).1
    = if is_admin s
      then map_imap (λ name t,
                       Some (update_purse (AUCTION_STARTED st0) form name t))
                    (TEAMS st0)
      else TEAMS st0.
Proof. unfold admin_dashboard. by destruct (is_admin s). Qed.








(** * Further properties of the code *)

(** ** The loaders *)

Lemma load_rows_cons csv r rows pid (m : gmap Z Player) :
  load_rows csv (r :: rows) pid m =
    if row_kept csv r
    then load_rows csv rows (pid + 1)%Z (<[pid := player_of_row pid r]> m)
    else load_rows csv rows pid m.
Proof.
  unfold row_kept, player_of_row. simpl.
  destruct (cell_set_no r) as [n|], csv; simpl;
    by destruct (truthy (strip (cell_first_name r))),
               (truthy (strip (cell_surname r))).
Qed.

Lemma load_rows_lookup csv rows pid (m : gmap Z Player) k :
  load_rows csv rows pid m !! k =
    match (if decide (pid ≤ k)%Z
           then kept_rows csv rows !! Z.to_nat (k - pid) else None) with
    | Some r => Some (player_of_row k r)
    | None => m !! k
    end.
Proof.
  revert pid m. induction rows as [|r rows IH]; intros pid m.
  - simpl. by case_decide.
  - rewrite load_rows_cons. unfold kept_rows in *.
    destruct (row_kept csv r) eqn:Hk.
    + rewrite filter_cons_True by done. rewrite IH.
      destruct (decide (pid + 1 ≤ k)%Z), (decide (pid ≤ k)%Z); try lia.
      * replace (Z.to_nat (k - pid)) with (S (Z.to_nat (k - (pid + 1))))
          by lia. simpl.
        destruct (filter _ rows !! _); [done|].
        apply lookup_insert_ne. lia.
      * assert (k = pid) as -> by lia. rewrite Z.sub_diag. simpl.
        by rewrite lookup_insert_eq.
      * apply lookup_insert_ne. lia.
    + rewrite filter_cons_False by (by rewrite Hk). apply IH.
Qed.

Lemma load_rows_no_kept csv rows :
  kept_rows csv rows = [] → load_rows csv rows 1%Z ∅ = ∅.
Proof.
  intros E. apply map_eq. intros k.
  rewrite load_rows_lookup, E, lookup_empty. by case_decide.
Qed.





(** ** Well-formed sessions *)

Lemma get_current_player_ext st st' :
  PLAYERS st' = PLAYERS st → AUCTION_STARTED st' = AUCTION_STARTED st →
  AUCTION_ORDER st' = AUCTION_ORDER st → CURRENT_INDEX st' = CURRENT_INDEX st →
  get_current_player st' = get_current_player st.
Proof. intros E1 E2 E3 E4. unfold get_current_player. by rewrite E1, E2, E3, E4. Qed.

Lemma get_current_player_Some st p :
  get_current_player st = Some p →
  AUCTION_STARTED st = true
  ∧ (0 ≤ CURRENT_INDEX st < Z.of_nat (length (AUCTION_ORDER st)))%Z
  ∧ ∃ pid, AUCTION_ORDER st !! Z.to_nat (CURRENT_INDEX st) = Some pid
           ∧ PLAYERS st !! pid = Some p.
Proof.
  unfold get_current_player.
  destruct (AUCTION_STARTED st); [|done]. simpl.
  destruct (Z.ltb_spec (CURRENT_INDEX st) 0); [done|]. simpl.
  destruct (Z.leb_spec (Z.of_nat (length (AUCTION_ORDER st)))
              (CURRENT_INDEX st)); [done|].
  destruct (AUCTION_ORDER st !! _) as [pid|] eqn:Ho; [|done].
  intros Hp. repeat split; try done; try lia. by exists pid.
Qed.

Lemma Wf_frame st st' :
  Wf st →
  PLAYERS st' = PLAYERS st → AUCTION_STARTED st' = AUCTION_STARTED st →
  AUCTION_ORDER st' = AUCTION_ORDER st → CURRENT_INDEX st' = CURRENT_INDEX st →
  (CURRENT_BID st' = CURRENT_BID st ∨ CURRENT_BID st' = None) →
  SOLD_PLAYERS st' = SOLD_PLAYERS st →
  (∀ F, is_Some (TEAMS st !! F) → is_Some (TEAMS st' !! F)) →
  Wf st'.
Proof.
  intros HW E1 E2 E3 E4 E5 E6 HT.
  pose proof (get_current_player_ext st st' E1 E2 E3 E4) as Hg.
  split; rewrite ?E1, ?E2, ?E3, ?E4, ?E6, ?Hg; try apply HW.
  - intros b Hb. destruct E5 as [E5|E5]; rewrite E5 in Hb; [|done].
    by apply HW.
  - intros pid o Ho. destruct (wf_sold _ HW pid o Ho) as (p & Hp & Hn & Ht).
    exists p. split; [done|]. split; [done|].
    destruct (sold_team_name o); [|done]. destruct Ht. split; [|done].
    by apply HT.
Qed.

Lemma Wf_reset players teams :
  Wf (mkState players teams false [] (-1)%Z None ∅).
Proof.
  split; simpl; try done.
  - constructor.
  - intros pid Hp. by apply elem_of_nil in Hp.
Qed.

Lemma Wf_module_globals : Wf module_globals.
Proof. apply Wf_reset. Qed.

Lemma purses_kept_is_Some st st' F :
  purses_kept st st' → is_Some (TEAMS st !! F) → is_Some (TEAMS st' !! F).
Proof.
  intros [Hf _] [t Ht]. destruct (Hf F t Ht) as (t' & Ht' & _). by eexists.
Qed.

Lemma init_teams_Wf st : Wf st → Wf (init_teams st).
Proof.
  intros HW. apply (Wf_frame st); try done.
  - unfold init_teams. by destruct (nonempty (TEAMS st)).
  - unfold init_teams. by destruct (nonempty (TEAMS st)).
  - unfold init_teams. by destruct (nonempty (TEAMS st)).
  - unfold init_teams. by destruct (nonempty (TEAMS st)).
  - left. unfold init_teams. by destruct (nonempty (TEAMS st)).
  - unfold init_teams. by destruct (nonempty (TEAMS st)).
  - intros F. apply purses_kept_is_Some, init_teams_purses_kept.
Qed.

Lemma load_players_auto_Wf d st : Wf st → Wf (load_players_auto d st).
Proof.
  intros HW. unfold load_players_auto.
  destruct (nonempty (PLAYERS st)); [done|].
  destruct (PLAYERS_PDF d); [apply Wf_reset|].
  destruct (PLAYERS_CSV d); [apply Wf_reset|done].
Qed.

Lemma select_team_frame s post st :
  let st0 := init_teams st in
  let st' := (select_team s post st).1.1 in
  PLAYERS st' = PLAYERS st0 ∧ AUCTION_STARTED st' = AUCTION_STARTED st0
  ∧ AUCTION_ORDER st' = AUCTION_ORDER st0
  ∧ CURRENT_INDEX st' = CURRENT_INDEX st0
  ∧ CURRENT_BID st' = CURRENT_BID st0
  ∧ SOLD_PLAYERS st' = SOLD_PLAYERS st0
  ∧ purses_kept st0 st'.
Proof.
  cbv zeta. unfold select_team. set (st0 := init_teams st). clearbody st0.
  destruct (AUCTION_STARTED st0) eqn:Hs;
    [simpl; rewrite Hs; do 6 (split; [reflexivity|]); apply purses_kept_refl|].
  destruct post as [[team_field display_field]|];
    [|simpl; rewrite Hs; do 6 (split; [reflexivity|]); apply purses_kept_refl].
  destruct team_field as [team_name|];
    [|simpl; rewrite Hs; do 6 (split; [reflexivity|]); apply purses_kept_refl].
  destruct (truthy team_name);
    [|simpl; rewrite Hs; do 6 (split; [reflexivity|]); apply purses_kept_refl].
  simpl.
  destruct (TEAMS st0 !! team_name) as [team|];
    [|simpl; rewrite Hs; do 6 (split; [reflexivity|]); apply purses_kept_refl].
  destruct (truthy_opt (taken_by team));
    [simpl; rewrite Hs; do 6 (split; [reflexivity|]); apply purses_kept_refl|].
  simpl. rewrite Hs. do 6 (split; [done|]).
  destruct (current_team s st0), (session_team_name s) as [old|];
    try (by eapply purses_kept_alter).
  apply (purses_kept_trans _
           (set_TEAMS (alter (set_taken_by None) old (TEAMS st0)) st0));
    by eapply purses_kept_alter.
Qed.

Lemma select_team_Wf s post st : Wf st → Wf (select_team s post st).1.1.
Proof.
  intros HW0. pose proof (init_teams_Wf _ HW0) as HW.
  destruct (select_team_frame s post st) as (E1 & E2 & E3 & E4 & E5 & E6 & HK).
  apply (Wf_frame (init_teams st)); try done; [by left|].
  intros F. by apply purses_kept_is_Some.
Qed.

Lemma unselect_team_Wf s st : Wf st → Wf (unselect_team s st).1.1.
Proof.
  intros HW0. pose proof (init_teams_Wf _ HW0) as HW.
  unfold unselect_team. set (st0 := init_teams st) in *. clearbody st0.
  destruct (AUCTION_STARTED st0); [done|].
  destruct (current_team s st0), (session_team_name s) as [k|]; try done.
  simpl. apply (Wf_frame st0); try done; [by left|].
  intros F. apply purses_kept_is_Some. by eapply purses_kept_alter.
Qed.

Lemma admin_dashboard_Wf s post d st :
  Wf st → Wf (admin_dashboard s post d st).1.
Proof.
  intros HW0.
  pose proof (load_players_auto_Wf d _ (init_teams_Wf _ HW0)) as HW.
  unfold admin_dashboard.
  set (st0 := load_players_auto d (init_teams st)) in *. clearbody st0.
  destruct (is_admin s); [|done]. destruct post as [form|]; [|done].
  simpl. apply (Wf_frame st0); try done; [by left|].
  intros F [t Ht]. simpl. rewrite map_lookup_imap, Ht. simpl. by eexists.
Qed.

Lemma upload_players_Wf s file d st :
  Wf st → Wf (upload_players s file d st).1.1.
Proof.
  intros HW. unfold upload_players. destruct (is_admin s); [|done].
  destruct file as [[rows|rows|]|]; simpl; try done; apply Wf_reset.
Qed.

Lemma ordered_players_catalog draws st pid :
  Inv st → pid ∈ (id <$> ordered_players draws st) →
  is_Some (PLAYERS st !! pid).
Proof.
  intros HI Hin. apply list_elem_of_fmap in Hin as (p & -> & Hp).
  rewrite ordered_players_Permutation in Hp.
  apply list_elem_of_fmap in Hp as ([k p'] & -> & Hkp). simpl.
  apply elem_of_map_to_list in Hkp.
  rewrite (inv_player_ids _ HI _ _ Hkp). by eexists.
Qed.

Lemma start_auction_Wf s draws st :
  Inv st → Wf st → Wf (start_auction s draws st).1.
Proof.
  intros HI HW. unfold start_auction. destruct (is_admin s); [|done].
  destruct (nonempty (PLAYERS st)) eqn:Hne; [|done]. simpl.
  rewrite build_auction_order_nonempty by done.
  split; simpl; try done.
  - intros _. split; [done|]. by apply nonempty_iff.
  - by apply ordered_players_ids_NoDup.
  - intros pid. by apply ordered_players_catalog.
  - apply HW.
Qed.

Lemma end_auction_Wf s st : Wf st → Wf (end_auction s st).1.
Proof.
  intros HW. unfold end_auction. destruct (is_admin s); [|done].
  split; simpl; try done; apply HW.
Qed.

Lemma place_bid_Wf s amount_field st :
  Wf st → Wf (place_bid s amount_field st).1.
Proof.
  intros HW. unfold place_bid.
  destruct (AUCTION_STARTED st) eqn:Hs; [|done]. simpl.
  destruct (current_team s st) as [team|] eqn:Ht; [|done].
  destruct (get_current_player st) as [player|] eqn:Hp; [|done].
  destruct (default (Some 0) amount_field) as [a|]; [|done].
  destruct (Qle_bool a 0); [done|].
  destruct (Qlt_bool a _); [done|].
  destruct (Qlt_bool _ a); [done|].
  simpl. split; simpl; try apply HW.
  intros b [= <-]. exists player. split; [|done].
  rewrite <-Hp. by apply get_current_player_ext.
Qed.

Lemma advance_Wf st p o teams :
  Inv st → Wf st → get_current_player st = Some p →
  sold_player_name o = full_name p →
  (∀ F, is_Some (TEAMS st !! F) → is_Some (teams !! F)) →
  match sold_team_name o with
  | Some F => is_Some (teams !! F) ∧ 0 < price_cr o
  | None => price_cr o = 0
  end →
  Wf (mkState (PLAYERS st) teams true (AUCTION_ORDER st)
        (CURRENT_INDEX st + 1)%Z None (<[id p := o]> (SOLD_PLAYERS st))).
Proof.
  intros HI HW Hp Hn HT Ho.
  destruct (get_current_player_Some _ _ Hp) as (Hs & Hidx & pid & Hpid & Hpl).
  pose proof (inv_player_ids _ HI _ _ Hpl) as Hid.
  split; simpl; try done; try apply HW.
  - intros _. split; [lia|]. by apply HW.
  - intros pid' o'. rewrite lookup_insert. case_decide as E.
    + intros [= <-]. exists p. by rewrite <-E, Hid.
    + intros Ho'. destruct (wf_sold _ HW pid' o' Ho') as (p' & Hp' & Hn' & Ht').
      exists p'. split; [done|]. split; [done|].
      destruct (sold_team_name o'); [|done]. destruct Ht'. split; [|done].
      by apply HT.
Qed.

Lemma sell_player_Wf s st : Inv st → Wf st → Wf (sell_player s st).1.
Proof.
  intros HI HW. unfold sell_player. destruct (is_admin s); [|done].
  destruct (AUCTION_STARTED st) eqn:Hs; [|done]. simpl.
  destruct (get_current_player st) as [p|] eqn:Hp; [|done].
  destruct (CURRENT_BID st) as [b|] eqn:Hb; [|done].
  destruct (TEAMS st !! team_name b) as [t|] eqn:Ht; [|done].
  simpl. unfold_setters. simpl. rewrite Hs.
  apply advance_Wf; try done.
  - intros F [t' Ht']. rewrite lookup_insert. case_decide; by eexists.
  - simpl. rewrite (inv_team_names _ HI _ _ Ht), lookup_insert_eq.
    split; [by eexists | by apply HI].
Qed.

Lemma unsold_player_Wf s st : Inv st → Wf st → Wf (unsold_player s st).1.
Proof.
  intros HI HW. unfold unsold_player. destruct (is_admin s); [|done].
  destruct (AUCTION_STARTED st) eqn:Hs; [|done]. simpl.
  destruct (get_current_player st) as [p|] eqn:Hp; [|done].
  simpl. unfold_setters. simpl. rewrite Hs.
  by apply advance_Wf.
Qed.

Lemma next_player_Wf s st : Wf st → Wf (next_player s st).1.
Proof.
  intros HW. unfold next_player. destruct (is_admin s); [|done].
  destruct (AUCTION_STARTED st) eqn:Hs; [|done]. simpl.
  unfold_setters. simpl. rewrite Hs.
  split; simpl; try done; try apply HW.
  intros _. destruct (wf_live _ HW Hs). split; [lia|done].
Qed.

Lemma serve_Wf w client r :
  Inv (globals w) → Wf (globals w) → Wf (globals (serve w client r).1).
Proof.
  intros HI HW. rewrite globals_serve. cbv zeta. destruct r.
  - by apply load_players_auto_Wf, init_teams_Wf.
  - by apply select_team_Wf.
  - by apply select_team_Wf.
  - by apply unselect_team_Wf.
  - done.
  - done.
  - done.
  - by apply admin_dashboard_Wf.
  - by apply admin_dashboard_Wf.
  - by apply upload_players_Wf.
  - by apply start_auction_Wf.
  - by apply end_auction_Wf.
  - by apply load_players_auto_Wf, init_teams_Wf.
  - by apply place_bid_Wf.
  - by apply sell_player_Wf.
  - by apply unsold_player_Wf.
  - by apply next_player_Wf.
Qed.

Lemma reachable_Wf w : reachable w → Wf (globals w).
Proof.
  intros (d & trace & ->).
  assert (H : ∀ trace w0, Inv (globals w0) → Wf (globals w0) →
                          Wf (globals (run w0 trace))).
  { clear. intros trace. induction trace as [|[c r] trace IH]; intros w0 HI HW.
    - done.
    - simpl. apply IH; [by apply serve_Inv | by apply serve_Wf]. }
  apply H; [apply Inv_module_globals | apply Wf_module_globals].
Qed.

(** ** Claims on franchises *)

Lemma claimants_kept_refl st : claimants_kept st st.
Proof. intros F t Ht. by exists t. Qed.

Lemma claimants_kept_trans st1 st2 st3 :
  claimants_kept st1 st2 → claimants_kept st2 st3 → claimants_kept st1 st3.
Proof.
  intros H12 H23 F t Ht. destruct (H12 F t Ht) as (t2 & Ht2 & E2).
  destruct (H23 F t2 Ht2) as (t3 & Ht3 & E3). exists t3. split; congruence.
Qed.

Lemma claimants_kept_same_teams st st' :
  TEAMS st' = TEAMS st → claimants_kept st st'.
Proof. intros E F t Ht. exists t. by rewrite E. Qed.

Lemma init_teams_claimants_kept st : claimants_kept st (init_teams st).
Proof.
  unfold init_teams. destruct (nonempty (TEAMS st)) eqn:E.
  - apply claimants_kept_refl.
  - intros F t Ht. apply nonempty_false in E. by rewrite E in Ht.
Qed.

Lemma init_load_claimants_kept d st :
  claimants_kept st (load_players_auto d (init_teams st)).
Proof.
  eapply claimants_kept_trans; [apply init_teams_claimants_kept|].
  apply claimants_kept_same_teams, load_players_auto_teams.
Qed.

Lemma admin_dashboard_claimants_kept s post d st :
  claimants_kept st (admin_dashboard s post d st).1.
Proof.
  eapply claimants_kept_trans; [apply (init_load_claimants_kept d)|].
  unfold admin_dashboard.
  set (st0 := load_players_auto d (init_teams st)). clearbody st0.
  destruct (is_admin s); [|apply claimants_kept_refl].
  destruct post as [form|]; [|apply claimants_kept_refl].
  intros F t Ht. simpl. rewrite map_lookup_imap, Ht. simpl.
  eexists. split; [done|]. unfold update_purse.
  destruct (form !! _) as [[v|]|]; try done.
  by destruct (negb _).
Qed.

Lemma sell_player_claimants_kept s st : claimants_kept st (sell_player s st).1.
Proof.
  destruct (sell_player_teams s st) as [E|(p & b & t0 & Hb & Ht0 & E)].
  - by apply claimants_kept_same_teams.
  - intros F t Ht. rewrite E, lookup_insert. case_decide as EF.
    + subst F. assert (t0 = t) as -> by congruence. by eexists.
    + by exists t.
Qed.


(** Either a call of [select_team] changes neither teams nor session
    beyond [init_teams], or it hands the free team [k] to the caller and
    frees the team the caller held. *)
Lemma select_team_cases s post st :
  let st0 := init_teams st in
  ((select_team s post st).1 = (st0, s)
   ∧ ∀ k, (select_team s post st).2 ≠ TeamTaken k)
  ∨ ∃ k display_field t,
      post = Some (Some k, display_field)
      ∧ AUCTION_STARTED st0 = false ∧ truthy k = true
      ∧ TEAMS st0 !! k = Some t ∧ truthy_opt (taken_by t) = false
      ∧ select_team s post st =
          (set_TEAMS
             (alter (set_taken_by (Some (display_name_of display_field))) k
                match current_team s st0, session_team_name s with
                | Some _, Some old => alter (set_taken_by None) old (TEAMS st0)
                | _, _ => TEAMS st0
                end) st0,
           mkSession (Some k) (session_is_admin s), TeamTaken k).
Proof.
  cbv zeta. unfold select_team. set (st0 := init_teams st). clearbody st0.
  destruct (AUCTION_STARTED st0) eqn:Hs; [by left|].
  destruct post as [[team_field display_field]|]; [|by left].
  destruct team_field as [k|]; [|by left].
  destruct (truthy k) eqn:Hk; [|by left]. simpl.
  destruct (TEAMS st0 !! k) as [t|] eqn:Ht; [|by left].
  destruct (truthy_opt (taken_by t)) eqn:Htk; [by left|].
  right. by exists k, display_field, t.
Qed.

Lemma unselect_team_cases s st :
  let st0 := init_teams st in
  ((unselect_team s st).1 = (st0, s))
  ∨ ∃ k t,
      AUCTION_STARTED st0 = false ∧ session_team_name s = Some k
      ∧ TEAMS st0 !! k = Some t
      ∧ unselect_team s st =
          (set_TEAMS (alter (set_taken_by None) k (TEAMS st0)) st0,
           mkSession None (session_is_admin s), TeamLeft).
Proof.
  cbv zeta. unfold unselect_team. set (st0 := init_teams st). clearbody st0.
  destruct (AUCTION_STARTED st0) eqn:Hs; [by left|].
  destruct (current_team s st0) as [t|] eqn:Ht; [|by left].
  destruct (current_team_lookup _ _ _ Ht) as (k & Hk & Hl).
  rewrite Hk. right. by exists k, t.
Qed.





Lemma session_of_serve w client r c :
  session_of (serve w client r).1 c =
    if decide (c = client) then session_after w client r else session_of w c.
Proof.
  assert (Hkeep : ∀ (x : State * Flash),
    session_of (mkWorld x.1 (disk w) (cookies w)) c =
      if decide (c = client) then session_of w client else session_of w c).
  { intros x. unfold session_of. simpl. by case_decide; subst. }
  assert (Hset : ∀ st' s',
    session_of (mkWorld st' (disk w) (<[client := s']> (cookies w))) c =
      if decide (c = client) then s' else session_of w c).
  { intros st' s'. unfold session_of. simpl. rewrite lookup_insert.
    repeat case_decide; subst; done. }
  unfold serve, session_after. destruct r; cbv zeta;
    try (by destruct (select_team _ _ _) as [[? ?] ?]; apply Hset);
    try (by destruct (unselect_team _ _) as [[? ?] ?]; apply Hset);
    try (by destruct (admin_login _ _); apply Hset);
    try (by destruct (admin_logout _); apply Hset);
    try (by destruct (home _ _) as [? ?] eqn:E;
            apply (Hkeep (s, f)));
    try (by destruct (auction_room _ _) as [? ?] eqn:E;
            apply (Hkeep (s, f)));
    try (by destruct (admin_dashboard _ _ _ _) as [? ?] eqn:E;
            apply (Hkeep (s, f)));
    try (by destruct (start_auction _ _ _) as [? ?] eqn:E;
            apply (Hkeep (s, f)));
    try (by destruct (end_auction _ _) as [? ?] eqn:E;
            apply (Hkeep (s, f)));
    try (by destruct (place_bid _ _ _) as [? ?] eqn:E;
            apply (Hkeep (s, f)));
    try (by destruct (sell_player _ _) as [? ?] eqn:E;
            apply (Hkeep (s, f)));
    try (by destruct (unsold_player _ _) as [? ?] eqn:E;
            apply (Hkeep (s, f)));
    try (by destruct (next_player _ _) as [? ?] eqn:E;
            apply (Hkeep (s, f))).
  destruct (upload_players _ _ _ _) as [[st' d'] f]. simpl.
  unfold session_of. simpl. by case_decide; subst.
Qed.

Lemma session_after_team_name w client r :
  match r with
  | PostSelectTeam _ _ | GetUnselectTeam => True
  | _ => session_team_name (session_after w client r)
         = session_team_name (session_of w client)
  end.
Proof.
  unfold session_after, admin_login, admin_logout.
  destruct r; try done.
  - destruct (select_team_cases (session_of w client) None (globals w))
      as [[E _]|(k & df & t & ? & _)]; [|done].
    cbv zeta in E. by rewrite E.
  - destruct password as [p|]; [|done]. by destruct (String.eqb _ _).
Qed.

Lemma serve_claimants_kept w client r :
  (∀ team display_name, r ≠ PostSelectTeam team display_name) →
  r ≠ GetUnselectTeam →
  claimants_kept (globals w) (globals (serve w client r).1).
Proof.
  intros Hsel Hun. rewrite globals_serve. cbv zeta. destruct r.
  - apply init_load_claimants_kept.
  - destruct (select_team_cases (session_of w client) None (globals w))
      as [[E _]|(k & df & t & ? & _)]; [|done].
    cbv zeta in E. rewrite E. apply init_teams_claimants_kept.
  - by destruct (Hsel team display_name).
  - done.
  - apply claimants_kept_refl.
  - apply claimants_kept_refl.
  - apply claimants_kept_refl.
  - apply admin_dashboard_claimants_kept.
  - apply admin_dashboard_claimants_kept.
  - apply claimants_kept_same_teams. unfold upload_players.
    destruct (is_admin _); [|done]. by destruct file as [[rows|rows|]|].
  - apply claimants_kept_same_teams. unfold start_auction, build_auction_order.
    destruct (is_admin _); [|done]. simpl.
    by destruct (nonempty (PLAYERS (globals w))).
  - apply claimants_kept_same_teams. unfold end_auction.
    by destruct (is_admin _).
  - apply init_load_claimants_kept.
  - apply claimants_kept_same_teams.
    by destruct (place_bid_cases (session_of w client) amount_field (globals w))
      as [[-> _]|(p & t & a & -> & _)].
  - apply sell_player_claimants_kept.
  - apply claimants_kept_same_teams. unfold unsold_player.
    destruct (is_admin _); [|done]. destruct (AUCTION_STARTED _); [|done].
    simpl. by destruct (get_current_player _).
  - apply claimants_kept_same_teams. unfold next_player.
    destruct (is_admin _); [|done]. by destruct (AUCTION_STARTED _).
Qed.





(** X4: while the auction is started no request changes who holds which
    franchise: every team keeps its claimant and every cookie its team. *)
Theorem claims_are_frozen_while_started w client r :
  AUCTION_STARTED (globals w) = true →
  claimants_kept (globals w) (globals (serve w client r).1)
  ∧ ∀ c, session_team_name (session_of (serve w client r).1 c)
         = session_team_name (session_of w c).
Proof.
  intros Hs.
  assert (Hs0 : AUCTION_STARTED (init_teams (globals w)) = true).
  { unfold init_teams. by destruct (nonempty _). }
  assert (Hsess : session_team_name (session_after w client r)
                  = session_team_name (session_of w client) →
    ∀ c, session_team_name (session_of (serve w client r).1 c)
         = session_team_name (session_of w c)).
  { intros E c. rewrite session_of_serve. by case_decide; subst. }
  pose proof (session_after_team_name w client r) as Hteam.
  destruct r; try (split; [by apply serve_claimants_kept|];
                   apply Hsess; exact Hteam).
  - destruct (select_team_cases (session_of w client)
                (Some (team, display_name)) (globals w))
      as [[E _]|(k & df & t & _ & Hns & _)]; cbv zeta in *; [|congruence].
    split.
    + rewrite globals_serve. cbv zeta. rewrite E.
      apply init_teams_claimants_kept.
    + apply Hsess. unfold session_after. by rewrite E.
  - destruct (unselect_team_cases (session_of w client) (globals w))
      as [E|(k & t & Hns & _)]; cbv zeta in *; [|congruence].
    split.
    + rewrite globals_serve. cbv zeta. rewrite E.
      apply init_teams_claimants_kept.
    + apply Hsess. unfold session_after. by rewrite E.
Qed.

(** During the demo auction client 1 asks for MI's place and is turned
    away: CSK is still held in the name of Asha and the cookie still says
    CSK. *)
Lemma claims_are_frozen_while_started_witness :
  (serve demo_started 1 (PostSelectTeam (Some "RCB"%string) None)).2
  = AlreadyStarted
  ∧ session_team_name
      (session_of
         (serve demo_started 1 (PostSelectTeam (Some "RCB"%string) None)).1 1)
    = Some "CSK"%string.
Proof.
  split; [vm_compute; reflexivity|].
  destruct (claims_are_frozen_while_started demo_started 1
              (PostSelectTeam (Some "RCB"%string) None)) as [_ H].
  - vm_compute; reflexivity.
  - rewrite H. vm_compute; reflexivity.
Defined.




(** X6: a client that is not an administrator cannot upload, start, end,
    sell, mark unsold or skip: the request is answered by a redirect and
    the server is exactly as before.  Its purse form is ignored too: no
    purse changes. *)
Theorem admin_routes_need_authority w client r :
  is_admin (session_of w client) = false →
  (admin_only r = true → serve w client r = (w, NotAuthorized))
  ∧ (∀ form, r = PostAdmin form →
       (serve w client r).2 = NotAuthorized
       ∧ purses_kept (globals w) (globals (serve w client r).1)
       ∧ claimants_kept (globals w) (globals (serve w client r).1)).
Proof.
  intros Ha. split.
  - destruct w as [st d ck]. unfold serve. simpl in *.
    destruct r; try done; intros _;
      unfold upload_players, start_auction, end_auction, sell_player,
        unsold_player, next_player; by rewrite Ha.
  - intros form ->. split; [|split].
    + unfold serve, admin_dashboard. by rewrite Ha.
    + rewrite globals_serve. cbv zeta. unfold admin_dashboard. rewrite Ha.
      apply init_load_purses_kept.
    + apply serve_claimants_kept; done.
Qed.

(** Client 1 of the demo run, a bidder, tries to sell the player to
    itself and to raise its own purse. *)
Lemma admin_routes_need_authority_witness :
  serve demo_csk_leads 1 PostSell = (demo_csk_leads, NotAuthorized)
  ∧ (serve demo_csk_leads 1
       (PostAdmin {[ "purse_CSK"%string := Some (500 : Q) ]})).2
    = NotAuthorized.
Proof.
  assert (Ha : is_admin (session_of demo_csk_leads 1) = false)
    by (vm_compute; reflexivity).
  destruct (admin_routes_need_authority demo_csk_leads 1 PostSell Ha)
    as [H1 _].
  destruct (admin_routes_need_authority demo_csk_leads 1
              (PostAdmin {[ "purse_CSK"%string := Some (500 : Q) ]}) Ha)
    as [_ H2].
  split; [apply H1; reflexivity|].
  destruct (H2 _ eq_refl) as [H _]. exact H.
Defined.

(** ** The session in reachable states *)





(** The request never meets a missing team in a reachable state. *)
Lemma sell_never_fails_on_team w client :
  reachable w → (serve w client PostSell).2 ≠ InternalError.
Proof.
  intros Hr. unfold serve. cbv zeta.
  destruct (sell_player (session_of w client) (globals w)) as [st' f] eqn:E.
  simpl. intros ->. revert E. unfold sell_player.
  destruct (is_admin _); [|done]. destruct (AUCTION_STARTED _); [|done]. simpl.
  destruct (get_current_player _); [|done].
  destruct (CURRENT_BID (globals w)) as [b|] eqn:Hb; [|done].
  destruct (inv_bid_purse _ (reachable_Inv w Hr) b Hb) as (t & -> & _). done.
Qed.



(** X10: with no player under the hammer (auction not started, or
    position past the end of the order) nothing can be bid or resolved:
    [place_bid], [sell_player] and [unsold_player] return the state
    unchanged, whoever calls; an administrator of a started auction is told
    "No active player", and so is a bidder with a team. *)
Theorem no_player_no_bid_no_sale st :
  get_current_player st = None →
  (∀ s amount_field, (place_bid s amount_field st).1 = st)
  ∧ (∀ s, (sell_player s st).1 = st)
  ∧ (∀ s, (unsold_player s st).1 = st)
  ∧ (AUCTION_STARTED st = true →
     (∀ s, is_admin s = true →
           sell_player s st = (st, NoActivePlayer)
           ∧ unsold_player s st = (st, NoActivePlayer))
     ∧ (∀ s amount_field, is_Some (current_team s st) →
           place_bid s amount_field st = (st, NoActivePlayer))).
Proof.
  intros Hp. unfold place_bid, sell_player, unsold_player. rewrite Hp.
  split; [|split; [|split]].
  - intros s af. destruct (negb _); [done|]. by destruct (current_team s st).
  - intros s. destruct (negb (is_admin s)); [done|]. by destruct (negb _).
  - intros s. destruct (negb (is_admin s)); [done|]. by destruct (negb _).
  - intros Hs. rewrite Hs. split.
    + intros s Ha. by rewrite Ha.
    + intros s af [t Ht]. by rewrite Ht.
Qed.

(** After the sale of its only player the demo auction is exhausted. *)
Lemma no_player_no_bid_no_sale_witness :
  place_bid csk_session (Some (Some 5)) (globals demo_sold)
  = (globals demo_sold, NoActivePlayer)
  ∧ unsold_player admin_session (globals demo_sold)
    = (globals demo_sold, NoActivePlayer).
Proof.
  assert (Hp : get_current_player (globals demo_sold) = None)
    by (vm_compute; reflexivity).
  assert (Hs : AUCTION_STARTED (globals demo_sold) = true)
    by (vm_compute; reflexivity).
  destruct (no_player_no_bid_no_sale _ Hp) as (_ & _ & _ & H).
  destruct (H Hs) as [H1 H2]. split.
  - apply H2. vm_compute. eexists. reflexivity.
  - apply (H1 admin_session eq_refl).
Defined.

(** ** Loading the saved roster *)

(** X11: [load_players_auto] leaves a state with a catalog alone, and is
    idempotent; with an empty catalog it reads the saved PDF file if there
    is one, whatever CSV file is saved beside it, else the saved CSV file,
    else nothing. *)
Theorem load_players_auto_prefers_pdf d st :
  (PLAYERS st ≠ ∅ → load_players_auto d st = st)
  ∧ load_players_auto d (load_players_auto d st) = load_players_auto d st
  ∧ (PLAYERS st = ∅ →
     load_players_auto d st =
       match PLAYERS_PDF d, PLAYERS_CSV d with
       | Some rows, _ =>
           mkState (load_rows false rows 1%Z ∅) (TEAMS st) false [] (-1)%Z
                   None ∅
       | None, Some rows =>
           mkState (load_rows true rows 1%Z ∅) (TEAMS st) false [] (-1)%Z
                   None ∅
       | None, None => st
       end).
Proof.
  assert (H1 : PLAYERS st ≠ ∅ → load_players_auto d st = st).
  { intros Hne. apply nonempty_iff in Hne. unfold load_players_auto.
    by rewrite Hne. }
  assert (H3 : PLAYERS st = ∅ →
     load_players_auto d st =
       match PLAYERS_PDF d, PLAYERS_CSV d with
       | Some rows, _ =>
           mkState (load_rows false rows 1%Z ∅) (TEAMS st) false [] (-1)%Z
                   None ∅
       | None, Some rows =>
           mkState (load_rows true rows 1%Z ∅) (TEAMS st) false [] (-1)%Z
                   None ∅
       | None, None => st
       end).
  { intros E. unfold load_players_auto. rewrite E.
    by destruct (PLAYERS_PDF d), (PLAYERS_CSV d). }
  split; [done|]. split; [|done].
  destruct (nonempty (PLAYERS st)) eqn:Hne.
  { apply nonempty_iff in Hne. by rewrite !H1. }
  apply nonempty_false in Hne. rewrite (H3 Hne).
  unfold load_players_auto.
  destruct (PLAYERS_PDF d) as [rp|] eqn:Hp.
  { simpl. by destruct (nonempty (load_rows false rp 1%Z ∅)). }
  destruct (PLAYERS_CSV d) as [rc|] eqn:Hc.
  { simpl. by destruct (nonempty (load_rows true rc 1%Z ∅)). }
  by rewrite Hne.
Qed.

(** With the demo roster saved as PDF and the ragged roster saved as CSV,
    an empty catalog is filled from the PDF file. *)
Lemma load_players_auto_prefers_pdf_witness :
  PLAYERS (load_players_auto (mkDisk (Some demo_rows) (Some ragged_rows))
             module_globals)
  = load_rows false demo_rows 1%Z ∅.
Proof.
  destruct (load_players_auto_prefers_pdf
              (mkDisk (Some demo_rows) (Some ragged_rows)) module_globals)
    as (_ & _ & H).
  rewrite H; reflexivity.
Defined.

(** X12: an uploaded CSV file in which no row is kept leaves the catalog
    empty, and the next page view then loads the PDF file saved earlier, if
    there is one: the catalog is the one of that older file. *)
Theorem empty_upload_falls_back_to_saved_pdf s d st rows rows_pdf :
  is_admin s = true →
  kept_rows true rows = [] →
  PLAYERS_PDF d = Some rows_pdf →
  let up := upload_players s (Some (UploadCsv rows)) d st in
  PLAYERS up.1.1 = ∅
  ∧ up.1.2 = mkDisk (Some rows_pdf) (Some rows)
  ∧ up.2 = Loaded 0
  ∧ PLAYERS (home up.1.2 up.1.1).1 = load_rows false rows_pdf 1%Z ∅.
Proof.
  intros Ha Hk Hp. cbv zeta. unfold upload_players. rewrite Ha. simpl.
  apply load_rows_no_kept in Hk. rewrite Hk, Hp.
  split; [done|]. split; [done|]. split; [by rewrite map_size_empty|].
  unfold home. cbn [fst snd]. unfold load_players_auto.
  match goal with
  | |- context [nonempty (PLAYERS ?x)] =>
      assert (He : PLAYERS x = ∅)
        by (unfold init_teams; by destruct (nonempty _))
  end.
  rewrite He. done.
Qed.

(** The demo roster is saved as PDF; an administrator uploads a CSV file
    whose only row has no name, and the home page brings the demo roster
    back. *)
Lemma empty_upload_falls_back_to_saved_pdf_witness :
  let up := upload_players admin_session (Some (UploadCsv nameless_rows))
              (mkDisk (Some demo_rows) None) module_globals in
  PLAYERS up.1.1 = ∅
  ∧ PLAYERS (home up.1.2 up.1.1).1 = load_rows false demo_rows 1%Z ∅.
Proof.
  assert (Hk : kept_rows true nameless_rows = []) by (vm_compute; reflexivity).
  destruct (empty_upload_falls_back_to_saved_pdf admin_session
              (mkDisk (Some demo_rows) None) module_globals
              nameless_rows demo_rows eq_refl Hk eq_refl)
    as (H1 & _ & _ & H4).
  split; assumption.
Defined.

(** ** Bids *)



(** ** Page views and the position *)

Lemma same_auction_refl st : same_auction st st.
Proof. by repeat split. Qed.

Lemma same_auction_trans st1 st2 st3 :
  same_auction st1 st2 → same_auction st2 st3 → same_auction st1 st3.
Proof.
  intros (A1 & A2 & A3 & A4 & A5) (B1 & B2 & B3 & B4 & B5).
  repeat split; congruence.
Qed.

Lemma init_teams_same_auction st : same_auction st (init_teams st).
Proof.
  unfold init_teams. destruct (nonempty (TEAMS st)); by repeat split.
Qed.

Lemma empty_catalog_idle st :
  Inv st → Wf st → PLAYERS st = ∅ →
  same_auction (mkState (PLAYERS st) (TEAMS st) false [] (-1)%Z None ∅) st.
Proof.
  intros HI HW E.
  assert (Hs : AUCTION_STARTED st = false).
  { destruct (AUCTION_STARTED st) eqn:Hs; [|done].
    by destruct (wf_live _ HW Hs). }
  assert (Ho : AUCTION_ORDER st = []).
  { destruct (AUCTION_ORDER st) as [|pid l] eqn:Ho; [done|].
    destruct (wf_order_catalog _ HW pid) as [p Hp]; [rewrite Ho; by left|].
    by rewrite E in Hp. }
  assert (Hsold : SOLD_PLAYERS st = ∅).
  { apply map_eq. intros pid. rewrite lookup_empty.
    destruct (SOLD_PLAYERS st !! pid) as [o|] eqn:Hso; [|done].
    destruct (wf_sold _ HW pid o Hso) as (p & Hp & _). by rewrite E in Hp. }
  repeat split; simpl; try done.
  - by rewrite (wf_idle _ HW Hs).
  - by rewrite (Inv_not_started _ HI Hs).
Qed.

Lemma load_players_auto_same_auction d st :
  Inv st → Wf st → same_auction st (load_players_auto d st).
Proof.
  intros HI HW. unfold load_players_auto.
  destruct (nonempty (PLAYERS st)) eqn:Hne; [apply same_auction_refl|].
  apply nonempty_false in Hne.
  destruct (empty_catalog_idle st HI HW Hne) as (A1 & A2 & A3 & A4 & A5).
  simpl in *.
  destruct (PLAYERS_PDF d); [by repeat split|].
  destruct (PLAYERS_CSV d); [by repeat split|apply same_auction_refl].
Qed.

Lemma init_load_same_auction d st :
  Inv st → Wf st → same_auction st (load_players_auto d (init_teams st)).
Proof.
  intros HI HW.
  eapply same_auction_trans; [apply init_teams_same_auction|].
  apply load_players_auto_same_auction;
    [by apply init_teams_Inv | by apply init_teams_Wf].
Qed.






(** ** Squads and outcomes *)

Lemma squads_kept_refl st : squads_kept st st.
Proof. intros F t Ht. left. by exists t. Qed.

Lemma squads_kept_same_teams st st' :
  TEAMS st' = TEAMS st → squads_kept st st'.
Proof. intros E F t Ht. left. exists t. by rewrite <-E. Qed.

Lemma default_teams_squads l (m : gmap string Team) F t :
  foldl (λ teams '(name, purse),
           <[name := mkTeam name purse purse None []]> teams) m l !! F
  = Some t →
  m !! F = Some t ∨ squad t = [].
Proof.
  revert m. induction l as [|[n q] l IH]; intros m H; simpl in *.
  - by left.
  - destruct (IH _ H) as [H1|H1]; [|by right].
    rewrite lookup_insert in H1. case_decide.
    + injection H1 as <-. by right.
    + by left.
Qed.

Lemma init_teams_squads_kept st : squads_kept st (init_teams st).
Proof.
  unfold init_teams. destruct (nonempty (TEAMS st)) eqn:E.
  - apply squads_kept_refl.
  - apply nonempty_false in E. intros F t' Ht'. right.
    split; [by rewrite E|].
    destruct (default_teams_squads DEFAULT_TEAMS (TEAMS st) F t' Ht')
      as [H|H]; [|done].
    by rewrite E in H.
Qed.

Lemma squads_kept_trans_init st st' :
  squads_kept (init_teams st) st' → squads_kept st st'.
Proof.
  intros H F t' Ht'. destruct (H F t' Ht') as [(t0 & Ht0 & E)|[Hn E]].
  - destruct (init_teams_squads_kept st F t0 Ht0) as [(t & Ht & E')|[Hn E']].
    + left. exists t. split; congruence.
    + right. split; congruence.
  - right. split; [|done].
    destruct (TEAMS st !! F) as [t|] eqn:Ht; [|done].
    destruct (init_teams_claimants_kept st F t Ht) as (t0 & Ht0 & _).
    congruence.
Qed.

Lemma alter_taken_by_squad v k (m : gmap string Team) F t' :
  alter (set_taken_by v) k m !! F = Some t' →
  ∃ t, m !! F = Some t ∧ squad t' = squad t.
Proof.
  rewrite lookup_alter. case_decide.
  - subst. destruct (m !! F) as [t|]; simpl; [|done].
    intros [= <-]. by exists t.
  - intros Ht. by exists t'.
Qed.

Lemma squads_kept_alter v k st st' :
  TEAMS st' = alter (set_taken_by v) k (TEAMS st) → squads_kept st st'.
Proof.
  intros E F t' Ht'. rewrite E in Ht'. left.
  by apply (alter_taken_by_squad v k).
Qed.

Lemma serve_squads_kept w client r :
  r ≠ PostSell → squads_kept (globals w) (globals (serve w client r).1).
Proof.
  intros Hsell. rewrite globals_serve. cbv zeta.
  assert (Hload : ∀ d st, squads_kept st (load_players_auto d (init_teams st))).
  { intros d st. apply squads_kept_trans_init, squads_kept_same_teams,
      load_players_auto_teams. }
  destruct r; try done.
  - apply Hload.
  - apply squads_kept_trans_init.
    destruct (select_team_cases (session_of w client) None (globals w))
      as [[E _]|(k & df & t & ? & _)]; [|done].
    cbv zeta in E. rewrite E. apply squads_kept_refl.
  - apply squads_kept_trans_init.
    destruct (select_team_cases (session_of w client)
                (Some (team, display_name)) (globals w))
      as [[E _]|(k & df & t & _ & _ & _ & _ & _ & E)]; cbv zeta in E;
      rewrite E; simpl; [apply squads_kept_refl|].
    intros F t' Ht'. simpl in Ht'.
    apply alter_taken_by_squad in Ht' as (t1 & Ht1 & E1). left.
    destruct (current_team (session_of w client) (init_teams (globals w)));
      [|exists t1; by split].
    destruct (session_team_name (session_of w client)) as [old|];
      [|exists t1; by split].
    apply alter_taken_by_squad in Ht1 as (t2 & Ht2 & E2).
    exists t2. split; congruence.
  - apply squads_kept_trans_init.
    destruct (unselect_team_cases (session_of w client) (globals w))
      as [E|(k & t & _ & _ & _ & E)]; cbv zeta in E; rewrite E; simpl;
      [apply squads_kept_refl | by eapply squads_kept_alter].
  - apply squads_kept_refl.
  - apply squads_kept_refl.
  - apply squads_kept_refl.
  - unfold admin_dashboard. destruct (is_admin _); apply Hload.
  - intros F t'.
    destruct (admin_dashboard_edit (session_of w client) form (disk w)
                (globals w)) as [_ ET]. cbv zeta in ET. rewrite ET.
    destruct (is_admin _); [|apply Hload].
    rewrite map_lookup_imap.
    destruct (TEAMS (load_players_auto (disk w) (init_teams (globals w))) !! F)
      as [t0|] eqn:Ht0; simpl; [|done].
    intros [= <-].
    assert (Hsq : squad (update_purse
                    (AUCTION_STARTED
                       (load_players_auto (disk w) (init_teams (globals w))))
                    form F t0) = squad t0).
    { unfold update_purse. destruct (form !! _) as [[v|]|]; try done.
      by destruct (negb _). }
    rewrite Hsq. apply (Hload (disk w) (globals w) F t0 Ht0).
  - apply squads_kept_same_teams. unfold upload_players.
    destruct (is_admin _); [|done]. by destruct file as [[rows|rows|]|].
  - apply squads_kept_same_teams. unfold start_auction, build_auction_order.
    destruct (is_admin _); [|done]. simpl.
    by destruct (nonempty (PLAYERS (globals w))).
  - apply squads_kept_same_teams. unfold end_auction.
    by destruct (is_admin _).
  - apply Hload.
  - apply squads_kept_same_teams.
    by destruct (place_bid_frame (session_of w client)
                   amount_field (globals w)) as (_ & E & _).
  - apply squads_kept_same_teams. unfold unsold_player.
    destruct (is_admin _); [|done]. destruct (AUCTION_STARTED _); [|done].
    simpl. by destruct (get_current_player _).
  - apply squads_kept_same_teams. unfold next_player.
    destruct (is_admin _); [|done]. by destruct (AUCTION_STARTED _).
Qed.

Lemma serve_sold_kept w client r :
  Inv (globals w) → Wf (globals w) → single_run w client r →
  r ≠ PostSell → r ≠ PostUnsold →
  SOLD_PLAYERS (globals (serve w client r).1) = SOLD_PLAYERS (globals w).
Proof.
  intros HI HW Hok Hsell Hunsold. rewrite globals_serve. cbv zeta.
  assert (Hs : ∀ st1 st2, same_auction st1 st2 →
                        SOLD_PLAYERS st2 = SOLD_PLAYERS st1)
    by (by intros st1 st2 (_ & _ & _ & _ & E)).
  destruct r; try done.
  - by apply Hs, init_load_same_auction.
  - destruct (select_team_frame (session_of w client) None (globals w))
      as (_ & _ & _ & _ & _ & E & _). cbv zeta in E. rewrite E.
    apply Hs, init_teams_same_auction.
  - destruct (select_team_frame (session_of w client)
                (Some (team, display_name)) (globals w))
      as (_ & _ & _ & _ & _ & E & _). cbv zeta in E. rewrite E.
    apply Hs, init_teams_same_auction.
  - destruct (unselect_team_cases (session_of w client) (globals w))
      as [E|(k & t & _ & _ & _ & E)]; cbv zeta in E; rewrite E; simpl;
      apply Hs, init_teams_same_auction.
  - unfold admin_dashboard. destruct (is_admin _);
      by apply Hs, init_load_same_auction.
  - unfold admin_dashboard. destruct (is_admin _); simpl;
      by apply Hs, init_load_same_auction.
  - simpl in Hok. unfold upload_players.
    destruct (is_admin _); [|done]. simpl.
    rewrite (Hok eq_refl).
    destruct file as [[rows|rows|]|]; simpl; try done; by apply Hok.
  - unfold start_auction, build_auction_order.
    destruct (is_admin _); [|done]. simpl.
    by destruct (nonempty (PLAYERS (globals w))).
  - unfold end_auction. by destruct (is_admin _).
  - by apply Hs, init_load_same_auction.
  - by destruct (place_bid_frame (session_of w client) amount_field
                   (globals w)) as (_ & _ & E & _).
  - unfold next_player. destruct (is_admin _); [|done].
    by destruct (AUCTION_STARTED _).
Qed.

Lemma Squads_kept st st' :
  Wf st → Squads st → squads_kept st st' →
  SOLD_PLAYERS st' = SOLD_PLAYERS st → Squads st'.
Proof.
  intros HW [H1 H2] HK E. split.
  - intros F t' pid Ht'. rewrite E.
    destruct (HK F t' Ht') as [(t & Ht & Es)|[Hn Es]]; rewrite Es.
    + by apply H1.
    + rewrite elem_of_nil. split; [done|]. intros (o & Ho & HF).
      destruct (wf_sold _ HW pid o Ho) as (p & _ & _ & HT).
      rewrite HF in HT. destruct HT as [[t Ht] _]. congruence.
  - intros F t' Ht'.
    destruct (HK F t' Ht') as [(t & Ht & Es)|[Hn Es]]; rewrite Es;
      [by eapply H2 | apply NoDup_nil_2].
Qed.

Lemma sell_player_Squads s st :
  Inv st → Ledger st → Squads st → Squads (sell_player s st).1.
Proof.
  intros HI HL HS. pose proof HS as [H1 H2].
  unfold sell_player. destruct (is_admin s); [|done].
  destruct (AUCTION_STARTED st) eqn:Hs; [|done]. simpl.
  destruct (get_current_player st) as [p|] eqn:Hp; [|done].
  destruct (CURRENT_BID st) as [b|] eqn:Hb; [|done].
  destruct (TEAMS st !! team_name b) as [t|] eqn:Ht; [|done].
  destruct (current_player_fresh st p HI HL Hp) as (_ & _ & _ & _ & Hfresh).
  pose proof (inv_team_names _ HI _ _ Ht) as Hname.
  assert (Hnot : ∀ F t0, TEAMS st !! F = Some t0 → id p ∉ squad t0).
  { intros F t0 Ht0 Hin. apply (H1 F t0 _ Ht0) in Hin as (o & Ho & _).
    congruence. }
  split; simpl.
  - intros F t' pid. rewrite lookup_insert. case_decide as EF.
    + intros [= <-]. simpl.
      rewrite elem_of_app, list_elem_of_singleton, (H1 _ _ pid Ht).
      subst F. rewrite Hname. split.
      * intros [(o & Ho & HF)|Epid].
        -- exists o. rewrite lookup_insert_ne; [done|]. intros <-. congruence.
        -- subst pid. eexists. rewrite lookup_insert_eq. done.
      * intros (o & Ho & HF). rewrite lookup_insert in Ho.
        case_decide as Epid; [by right|]. left. by exists o.
    + intros Ht'. rewrite (H1 _ _ pid Ht'). split.
      * intros (o & Ho & HF). exists o.
        rewrite lookup_insert_ne; [done|]. intros <-. congruence.
      * intros (o & Ho & HF). rewrite lookup_insert in Ho.
        case_decide as Epid; [|by exists o].
        injection Ho as <-. simpl in HF. congruence.
  - intros F t'. rewrite lookup_insert. case_decide as EF.
    + intros [= <-]. simpl. apply NoDup_app. split; [by eapply H2|].
      split; [|apply NoDup_singleton].
      intros x Hx Hx'. apply list_elem_of_singleton in Hx'. subst x.
      by eapply Hnot.
    + intros Ht'. by eapply H2.
Qed.

Lemma unsold_player_Squads s st :
  Inv st → Ledger st → Squads st → Squads (unsold_player s st).1.
Proof.
  intros HI HL HS. pose proof HS as [H1 H2].
  unfold unsold_player. destruct (is_admin s); [|done].
  destruct (AUCTION_STARTED st) eqn:Hs; [|done]. simpl.
  destruct (get_current_player st) as [p|] eqn:Hp; [|done].
  destruct (current_player_fresh st p HI HL Hp) as (_ & _ & _ & _ & Hfresh).
  split; simpl; [|done].
  intros F t pid Ht. rewrite (H1 _ _ pid Ht). split.
  - intros (o & Ho & HF). exists o.
    rewrite lookup_insert_ne; [done|]. intros <-. congruence.
  - intros (o & Ho & HF). rewrite lookup_insert in Ho.
    case_decide as Epid; [|by exists o]. by injection Ho as <-.
Qed.

Lemma single_run_Squads w : reachable_by single_run w → Squads (globals w).
Proof.
  apply (reachable_by_ind single_run (λ w, Squads (globals w))).
  - intros d. split; intros F t; simpl; by rewrite lookup_empty.
  - intros w0 c r Hr HS Hok.
    pose proof (reachable_by_reachable single_run w0 Hr) as Hr0.
    pose proof (reachable_Inv w0 Hr0) as HI.
    pose proof (reachable_Wf w0 Hr0) as HW.
    pose proof (single_run_Ledger w0 Hr) as HL.
    destruct r;
      try (apply (Squads_kept (globals w0));
           [done | done | by apply serve_squads_kept
           | by apply serve_sold_kept]).
    + rewrite globals_serve. by apply sell_player_Squads.
    + rewrite globals_serve. by apply unsold_player_Squads.
Qed.

(** X16: in a single run the squads say what the outcomes say.  The squad
    of a team lists no player twice, and a player is in it exactly when an
    outcome gives the player to that team; so no player is in two squads,
    and a player recorded as unsold is in none. *)
Theorem squads_match_outcomes_in_single_run w F t :
  reachable_by single_run w →
  TEAMS (globals w) !! F = Some t →
  NoDup (squad t)
  ∧ (∀ pid,
       pid ∈ squad t ↔
       ∃ o, SOLD_PLAYERS (globals w) !! pid = Some o
            ∧ sold_team_name o = Some F)
  ∧ (∀ pid F' t',
       pid ∈ squad t → TEAMS (globals w) !! F' = Some t' →
       pid ∈ squad t' → F' = F).
Proof.
  intros Hr Ht. destruct (single_run_Squads w Hr) as [H1 H2].
  split; [by eapply H2|]. split; [intros pid; by apply H1|].
  intros pid F' t' Hin Ht' Hin'.
  apply (H1 _ _ pid Ht) in Hin as (o & Ho & HF).
  apply (H1 _ _ pid Ht') in Hin' as (o' & Ho' & HF').
  congruence.
Qed.

(** The demo run up to the sale is a single run: player 1 is in the squad
    of MI, to which the outcome gives it, and in no other squad. *)
Lemma squads_match_outcomes_in_single_run_witness :
  (1%Z ∈ [1%Z]
   ↔ ∃ o, SOLD_PLAYERS (globals demo_sold) !! 1%Z = Some o
          ∧ sold_team_name o = Some "MI"%string)
  ∧ NoDup [1%Z].
Proof.
  assert (Hr : reachable_by single_run demo_sold).
  { exists (mkDisk None None), demo_trace. split; [|vm_compute; reflexivity].
    unfold demo_trace, demo_setup. cbn [app trace_ok fst snd single_run].
    repeat split; intros _; vm_compute; reflexivity. }
  destruct (squads_match_outcomes_in_single_run demo_sold "MI"
              (mkTeam "MI" 100 (100 - (21 # 10)) (Some "Ravi"%string) [1%Z])
              Hr) as (Hn & Hin & _); [vm_compute; reflexivity|].
  split; [exact (Hin 1%Z) | exact Hn].
Defined.

(** ** The franchises *)

Lemma default_teams_dom l (m : gmap string Team) :
  dom (foldl (λ teams '(name, purse),
                <[name := mkTeam name purse purse None []]> teams) m l)
  = list_to_set l.*1 ∪ dom m.
Proof.
  revert m. induction l as [|[n q] l IH]; intros m; simpl.
  - by rewrite union_empty_l_L.
  - rewrite IH, dom_insert_L, (assoc_L (∪)).
    by rewrite (comm_L (∪) (list_to_set l.*1)).
Qed.

Lemma init_teams_dom st :
  dom (TEAMS (init_teams st))
  = if nonempty (TEAMS st) then dom (TEAMS st) else default_names.
Proof.
  unfold init_teams. destruct (nonempty (TEAMS st)) eqn:E; [done|].
  apply nonempty_false in E. unfold set_TEAMS. cbn [TEAMS].
  rewrite (default_teams_dom DEFAULT_TEAMS), E, dom_empty_L.
  apply union_empty_r_L.
Qed.

Lemma map_imap_update_purse_dom started form (m : gmap string Team) :
  dom (map_imap (λ name t, Some (update_purse started form name t)) m) = dom m.
Proof.
  apply set_eq. intros k. rewrite !elem_of_dom, map_lookup_imap.
  destruct (m !! k); simpl; split; intros [? ?]; by eexists.
Qed.

Lemma serve_teams_dom w client r :
  dom (TEAMS (globals (serve w client r).1))
  = dom (TEAMS (if calls_init_teams r then init_teams (globals w)
                else globals w)).
Proof.
  rewrite globals_serve. cbv zeta. destruct r; cbn [calls_init_teams].
  - unfold home. cbn [fst]. by rewrite load_players_auto_teams.
  - destruct (select_team_cases (session_of w client) None (globals w))
      as [[E _]|(k & df & t & ? & _)]; [|done].
    cbv zeta in E. by rewrite E.
  - destruct (select_team_cases (session_of w client)
                (Some (team, display_name)) (globals w))
      as [[E _]|(k & df & t & _ & _ & _ & _ & _ & E)]; cbv zeta in E;
      rewrite E; [done|].
    unfold set_TEAMS. cbn [fst TEAMS]. rewrite dom_alter_L.
    destruct (current_team (session_of w client) (init_teams (globals w)));
      [|done].
    destruct (session_team_name (session_of w client)) as [old|]; [|done].
    by rewrite dom_alter_L.
  - destruct (unselect_team_cases (session_of w client) (globals w))
      as [E|(k & t & _ & _ & _ & E)]; cbv zeta in E; rewrite E; [done|].
    unfold set_TEAMS. cbn [fst TEAMS]. by rewrite dom_alter_L.
  - done.
  - done.
  - done.
  - unfold admin_dashboard. destruct (is_admin _); cbn [fst negb];
      by rewrite load_players_auto_teams.
  - destruct (admin_dashboard_edit (session_of w client) form (disk w)
                (globals w)) as [_ ET]. cbv zeta in ET. rewrite ET.
    destruct (is_admin _);
      [rewrite map_imap_update_purse_dom|]; by rewrite load_players_auto_teams.
  - f_equal. unfold upload_players.
    destruct (is_admin _); [|done]. by destruct file as [[rows|rows|]|].
  - f_equal. unfold start_auction, build_auction_order.
    destruct (is_admin _); [|done]. simpl.
    by destruct (nonempty (PLAYERS (globals w))).
  - f_equal. unfold end_auction. by destruct (is_admin _).
  - unfold auction_room. cbn [fst]. by rewrite load_players_auto_teams.
  - f_equal.
    by destruct (place_bid_frame (session_of w client) amount_field
                   (globals w)) as (_ & E & _).
  - destruct (sell_player_teams (session_of w client) (globals w))
      as [E|(p & b & t0 & Hb & Ht0 & E)]; rewrite E; [done|].
    apply dom_insert_lookup_L. by eexists.
  - f_equal. unfold unsold_player.
    destruct (is_admin _); [|done]. destruct (AUCTION_STARTED _); [|done].
    simpl. by destruct (get_current_player _).
  - f_equal. unfold next_player.
    destruct (is_admin _); [|done]. by destruct (AUCTION_STARTED _).
Qed.

Lemma reachable_teams w :
  reachable w →
  TEAMS (globals w) = ∅ ∨ dom (TEAMS (globals w)) = default_names.
Proof.
  intros (d & trace & ->).
  assert (H : ∀ trace w0,
    TEAMS (globals w0) = ∅ ∨ dom (TEAMS (globals w0)) = default_names →
    TEAMS (globals (run w0 trace)) = ∅
    ∨ dom (TEAMS (globals (run w0 trace))) = default_names).
  { clear. intros trace. induction trace as [|[c r] trace IH]; intros w0 H0.
    - done.
    - simpl. apply IH. unfold step. cbn [fst snd].
      pose proof (serve_teams_dom w0 c r) as E.
      destruct (calls_init_teams r).
      + right. rewrite E, init_teams_dom.
        destruct (nonempty (TEAMS (globals w0))) eqn:Hne; [|done].
        destruct H0 as [H0|H0]; [|done].
        apply nonempty_iff in Hne. done.
      + destruct H0 as [H0|H0]; [left|right; by rewrite E].
        apply dom_empty_inv_L. by rewrite E, H0, dom_empty_L. }
  apply H. by left.
Qed.

(** X17: the franchises are fixed.  In every reachable state there are no
    teams yet or exactly the ten of [DEFAULT_TEAMS]; a request whose
    handler calls [init_teams] leaves exactly those ten, and no other
    request adds or removes a team; so once teams exist no request changes
    which teams there are. *)
Theorem franchises_are_fixed w client r :
  reachable w →
  let st := globals w in
  let st' := globals (serve w client r).1 in
  (TEAMS st = ∅ ∨ dom (TEAMS st) = default_names)
  ∧ (calls_init_teams r = true → dom (TEAMS st') = default_names)
  ∧ (calls_init_teams r = false → dom (TEAMS st') = dom (TEAMS st))
  ∧ (TEAMS st ≠ ∅ → dom (TEAMS st') = dom (TEAMS st)).
Proof.
  intros Hr st st'. pose proof (reachable_teams w Hr) as H0. fold st in H0.
  pose proof (serve_teams_dom w client r) as E. fold st st' in E.
  assert (Hinit : dom (TEAMS (init_teams st)) = default_names).
  { rewrite init_teams_dom. destruct (nonempty (TEAMS st)) eqn:Hne; [|done].
    destruct H0 as [H0|H0]; [|done]. by apply nonempty_iff in Hne. }
  split; [done|]. split; [|split].
  - intros Hc. by rewrite Hc in E; rewrite E.
  - intros Hc. by rewrite Hc in E.
  - intros Hne. destruct (calls_init_teams r); [|done].
    rewrite E, Hinit. by destruct H0.
Qed.

(** Before any request there is no team; the home page creates the ten
    franchises, and the sale of the demo run keeps them. *)
Lemma franchises_are_fixed_witness :
  dom (TEAMS (globals (serve (boot (mkDisk None None)) 0 GetHome).1))
  = default_names
  ∧ dom (TEAMS (globals (serve demo_mi_leads 0 PostSell).1))
    = dom (TEAMS (globals demo_mi_leads)).
Proof.
  assert (Hr : reachable demo_mi_leads)
    by (do 3 apply run_reachable; apply boot_reachable).
  destruct (franchises_are_fixed (boot (mkDisk None None)) 0 GetHome
              (boot_reachable _)) as (_ & H1 & _).
  destruct (franchises_are_fixed demo_mi_leads 0 PostSell Hr)
    as (_ & _ & H2 & _).
  split; [by apply H1 | by apply H2].
Defined.

(** X18: a squad changes by a sale only.  Whatever the request, a team has
    afterwards the squad it had before, unless the request is a sale to
    that team, which appends the player under the hammer; no request,
    not even a reload of the catalog or the end of the auction, removes
    a player from a squad. *)
Theorem squads_grow_by_sales_only w client r F t t' :
  TEAMS (globals w) !! F = Some t →
  TEAMS (globals (serve w client r).1) !! F = Some t' →
  squad t' = squad t
  ∨ (r = PostSell
     ∧ ∃ p b,
         get_current_player (globals w) = Some p
         ∧ CURRENT_BID (globals w) = Some b ∧ team_name b = F
         ∧ squad t' = squad t ++ [id p]).
Proof.
  intros Ht Ht'.
  assert (Hk : r ≠ PostSell → squad t' = squad t).
  { intros Hne.
    destruct (serve_squads_kept w client r Hne F t' Ht')
      as [(t0 & Ht0 & E)|[Hn _]]; congruence. }
  destruct r; try (left; by apply Hk).
  rewrite globals_serve in Ht'. cbv zeta in Ht'. unfold sell_player in Ht'.
  destruct (is_admin _); [|left; simpl in Ht'; congruence].
  destruct (AUCTION_STARTED (globals w)); [|left; simpl in Ht'; congruence].
  simpl in Ht'.
  destruct (get_current_player (globals w)) as [p|];
    [|left; simpl in Ht'; congruence].
  destruct (CURRENT_BID (globals w)) as [b|];
    [|left; simpl in Ht'; congruence].
  destruct (TEAMS (globals w) !! team_name b) as [t0|] eqn:Ht0;
    [|left; simpl in Ht'; congruence].
  simpl in Ht'. rewrite lookup_insert in Ht'. case_decide as EF.
  - right. split; [done|]. exists p, b. injection Ht' as <-. simpl.
    subst F. assert (t0 = t) as -> by congruence. done.
  - left. congruence.
Qed.

(** The sale of the demo run appends player 1 to the empty squad of MI. *)
Lemma squads_grow_by_sales_only_witness :
  ∃ p, get_current_player (globals demo_mi_leads) = Some p
       ∧ [1%Z] = [] ++ [id p].
Proof.
  destruct (squads_grow_by_sales_only demo_mi_leads 0 PostSell "MI"
              (mkTeam "MI" 100 100 (Some "Ravi"%string) [])
              (mkTeam "MI" 100 (100 - (21 # 10)) (Some "Ravi"%string) [1%Z]))
    as [H|(_ & p & b & Hp & _ & _ & H)];
    [vm_compute; reflexivity | vm_compute; reflexivity | |].
  - discriminate H.
  - exists p. split; assumption.
Defined.
